(** * wasm_crx_parser: the CRX container parser and its JavaScript boundary

    The repository wraps a WebAssembly CRX parser ([wasm.parse_crx],
    [wasm.extract_zip_data]) in a small JavaScript class, [CrxParser]
    (src/js/index.js).  The JavaScript class is embedded here from its
    source.  The WebAssembly core itself is generated from code that is not
    part of the sources at hand; module [Core] models it from the
    specification, and the JavaScript layer takes the two exported functions
    as parameters. *)

From Stdlib Require Import ZArith NArith Lia.
From Stdlib.Strings Require Import Byte.
From stdpp Require Import base list gmap strings pretty.

#[global] Instance byte_eq_dec : EqDecision byte := Byte.byte_eq_dec.

(** A byte sequence (the contents of a [Uint8Array] or of a Rust slice). *)
Abbreviation bytes := (list byte).

(** ** Results: a value or an error *)

Inductive result (E A : Type) : Type :=
  | Ok (a : A)
  | Err (e : E).
Arguments Ok {E A} a.
Arguments Err {E A} e.

#[global] Instance result_ret {E} : MRet (result E) := λ A a, Ok a.
#[global] Instance result_bind {E} : MBind (result E) :=
  λ A B k m, match m with Ok a => k a | Err e => Err e end.

Definition is_ok {E A} (r : result E A) : bool :=
  match r with Ok _ => true | Err _ => false end.

(** ** Byte-level helpers *)

(** Little-endian value of a byte string. *)
Definition le_value (bs : bytes) : N :=
  foldr (λ b acc, Byte.to_N b + 256 * acc)%N 0%N bs.

(** Little-endian encoding of [n] on four bytes (for the sample buffers). *)
Definition byte_of_N (n : N) : byte :=
  default x00 (Byte.of_N (n mod 256)).

Definition u32_le (n : N) : bytes :=
  [byte_of_N n; byte_of_N (n / 256); byte_of_N (n / 65536);
   byte_of_N (n / 16777216)].

(** The ZIP local-file-header signature prefix, [0x50 0x4B]. *)
Definition PK0 : byte := "P"%byte.
Definition PK1 : byte := "K"%byte.

Definition looks_like_zip (payload : bytes) : bool :=
  bool_decide (payload !! 0%nat = Some PK0 ∧ payload !! 1%nat = Some PK1).

(** * The WebAssembly core, modelled from the specification *)

Module Core.

(** Modelled from the spec: the format versions of section 3
    ([format_version]: enumerated CRX2, CRX3).  The parser itself
    ([parse_crx] in the wasm module) is not among the sources. *)
Inductive FormatVersion : Set := CRX2 | CRX3.

(** Modelled from the spec: the parse-stage error kinds of section 7. *)
Inductive ParseError : Set :=
  | BadMagic
  | UnsupportedVersion (n : N)
  | Truncated
  | LengthMismatch
  | TruncatedRecord.

(** Modelled from the spec: the extraction-stage error kinds of
    section 7. *)
Inductive ExtractError : Set :=
  | OffsetOutOfRange
  | EmptyPayload
  | NotZip.

#[global] Instance ParseError_eq_dec : EqDecision ParseError.
Proof. solve_decision. Defined.
#[global] Instance ExtractError_eq_dec : EqDecision ExtractError.
Proof. solve_decision. Defined.
#[global] Instance FormatVersion_eq_dec : EqDecision FormatVersion.
Proof. solve_decision. Defined.

(** Modelled from the spec: [ContainerHeader], section 3. *)
Record ContainerHeader : Type := mkHeader {
  format_version : FormatVersion;
  public_keys : list bytes;
  signatures : list bytes;
  zip_offset : N;
  header_length : option N
}.

(** Modelled from the spec: the magic constant ["Cr24"] and the sizes of
    the fixed preambles (16 bytes for CRX2, 12 for CRX3), sections 4.1
    and 6. *)
Definition CRX_MAGIC : bytes := ["C"; "r"; "2"; "4"]%byte.
Definition CRX2_PREAMBLE : N := 16.
Definition CRX3_PREAMBLE : N := 12.

(** Modelled from the spec: the slice [buf[pos .. pos+n]] of sections 4.1
    and 6. *)
Definition slice (buf : bytes) (pos n : N) : bytes :=
  take (N.to_nat n) (drop (N.to_nat pos) buf).

(** Modelled from the spec: a bounds-checked read of [n] bytes at offset
    [pos] ("every length-prefixed read first checks declared length
    against remaining buffer size and fails closed", section 4.1).  The
    sum is taken in unbounded arithmetic, so it cannot wrap. *)
Definition read_bytes (buf : bytes) (pos n : N) : result ParseError bytes :=
  if decide (pos + n ≤ N.of_nat (length buf))%N
  then Ok (slice buf pos n)
  else Err Truncated.

(** Modelled from the spec: a 4-byte little-endian field. *)
Definition read_u32 (buf : bytes) (pos : N) : result ParseError N :=
  bs ← read_bytes buf pos 4; mret (le_value bs).

(** Modelled from the spec: the version field of the layout table of
    section 6 (offset 4, four bytes, little-endian). *)
Definition version_field (buf : bytes) : N := le_value (slice buf 4 4).
(** Modelled from the spec: the CRX2 key length field (offset 8). *)
Definition key_length_field (buf : bytes) : N := le_value (slice buf 8 4).
(** Modelled from the spec: the CRX2 signature length field (offset 12). *)
Definition sig_length_field (buf : bytes) : N := le_value (slice buf 12 4).
(** Modelled from the spec: the CRX3 header length field (offset 8). *)
Definition header_length_field (buf : bytes) : N := le_value (slice buf 8 4).

(** *** The nested sub-message decoder (section 4.3) *)

(** Modelled from the spec: one record of the CRX3 header body, "a
    tag/field-number byte, then a varint-encoded length, then exactly that
    many payload bytes".  [span] is the number of bytes the record
    occupies in the stream. *)
Record Field : Type := mkField {
  tag : byte;
  payload : bytes;
  span : N
}.

(** Modelled from the spec: what a tag denotes.  The spec names the three
    cases (signed header data, key proof, unrecognized) but not the tag
    values, so the classification is a parameter of the decoder. *)
Inductive FieldKind : Set := SignedHeaderData | AsymmetricKeyProof | UnknownField.

(** Modelled from the spec: a base-128 varint, least significant group
    first, the top bit of each byte marking a continuation.  [None] when
    the bytes end inside the varint. *)
Fixpoint read_varint (bs : bytes) : option (N * bytes) :=
  match bs with
  | [] => None
  | b :: rest =>
      let low := N.land (Byte.to_N b) 127 in
      if N.testbit (Byte.to_N b) 7
      then match read_varint rest with
           | Some (high, rest') => Some (low + 128 * high, rest')%N
           | None => None
           end
      else Some (low, rest)
  end.

(** Modelled from the spec: the record walk over the bounded slice, to its
    end.  A record whose declared length exceeds the remaining bytes of the
    slice is [TruncatedRecord]; so is one whose length field runs off the
    slice.  Every record takes at least two bytes, so [fuel = length body]
    is enough and the first branch on [fuel] is never taken then (lemma
    [decode_records_fuel]). *)
Fixpoint decode_records (fuel : nat) (rest : bytes) : result ParseError (list Field) :=
  match rest with
  | [] => Ok []
  | t :: after_tag =>
      match fuel with
      | O => Err TruncatedRecord
      | S fuel' =>
          match read_varint after_tag with
          | None => Err TruncatedRecord
          | Some (len, after_len) =>
              if decide (len ≤ N.of_nat (length after_len))%N
              then
                let body := take (N.to_nat len) after_len in
                let next := drop (N.to_nat len) after_len in
                let used := (N.of_nat (length rest) - N.of_nat (length next))%N in
                fs ← decode_records fuel' next;
                mret (mkField t body used :: fs)
              else Err TruncatedRecord
          end
      end
  end.

(** Modelled from the spec: the number of bytes the decoder consumed, the
    sum of the spans of the records it read (section 4.3). *)
Definition consumed (fs : list Field) : N :=
  foldr (λ f acc, span f + acc)%N 0%N fs.

(** [tiles fs body]: the slice [body] is the records [fs] laid end to end,
    each one a tag byte, a non-empty length field and its payload, with
    [span] the number of bytes of the three together. *)
Inductive tiles : list Field → bytes → Prop :=
  | tiles_nil : tiles [] []
  | tiles_cons t len_field body rest fs :
      len_field ≠ [] →
      tiles fs rest →
      tiles (mkField t body (N.of_nat (1 + length len_field + length body)) :: fs)
            (t :: len_field ++ body ++ rest).

Section Decoder.
(** The parts of the CRX3 record layout the spec leaves open: which tag
    byte denotes which field, and where the public key and the signature
    sit inside a key-proof record. *)
Variable field_kind : byte → FieldKind.
Variable proof_public_key : bytes → bytes.
Variable proof_signature : bytes → bytes.

(** Modelled from the spec: the records that are key proofs. *)
Definition is_proof (f : Field) : bool :=
  match field_kind (tag f) with AsymmetricKeyProof => true | _ => false end.

(** Modelled from the spec: [decode(header_bytes)], section 4.3.  Keys
    and signatures come out in stream order; records with other tags are
    read and discarded; the number of bytes consumed is returned for the
    caller's length check. *)
Definition decode (header_bytes : bytes)
  : result ParseError (N * list bytes * list bytes) :=
  fs ← decode_records (length header_bytes) header_bytes;
  let proofs := filter (λ f, is_proof f = true) fs in
  mret (consumed fs,
        (λ f, proof_public_key (payload f)) <$> proofs,
        (λ f, proof_signature (payload f)) <$> proofs).

(** Modelled from the spec: the CRX2 path of section 4.1: the two
    declared lengths are validated against the buffer before anything is
    sliced. *)
Definition parse_crx2 (buf : bytes) : result ParseError ContainerHeader :=
  key_length ← read_u32 buf 8;
  sig_length ← read_u32 buf 12;
  if decide (CRX2_PREAMBLE + key_length + sig_length ≤ N.of_nat (length buf))%N
  then
    mret (mkHeader CRX2
            [slice buf CRX2_PREAMBLE key_length]
            [slice buf (CRX2_PREAMBLE + key_length) sig_length]
            (CRX2_PREAMBLE + key_length + sig_length) None)
  else Err Truncated.

(** Modelled from the spec: the CRX3 path of section 4.1, with the
    length check of section 4.3 ("verify exactly header_length bytes
    were consumed ... mismatch is LengthMismatch"). *)
Definition parse_crx3 (buf : bytes) : result ParseError ContainerHeader :=
  hlen ← read_u32 buf 8;
  body ← read_bytes buf CRX3_PREAMBLE hlen;
  '(used, keys, sigs) ← decode body;
  if decide (used = hlen)
  then mret (mkHeader CRX3 keys sigs (CRX3_PREAMBLE + hlen) (Some hlen))
  else Err LengthMismatch.

(** Modelled from the spec: [parse(buffer)], section 4.1. *)
Definition parse_container (buf : bytes) : result ParseError ContainerHeader :=
  magic ← read_bytes buf 0 4;
  if decide (magic = CRX_MAGIC)
  then
    version ← read_u32 buf 4;
    if decide (version = 2%N) then parse_crx2 buf
    else if decide (version = 3%N) then parse_crx3 buf
    else Err (UnsupportedVersion version)
  else Err BadMagic.
End Decoder.

(** Modelled from the spec: [extract(buffer, header)], section 4.2. *)
Definition extract_payload (buf : bytes) (header : ContainerHeader)
  : result ExtractError bytes :=
  if decide (zip_offset header ≤ N.of_nat (length buf))%N
  then
    let rest := drop (N.to_nat (zip_offset header)) buf in
    if decide (length rest < 2)%nat then Err EmptyPayload
    else if looks_like_zip rest then Ok rest
    else Err NotZip
  else Err OffsetOutOfRange.

End Core.

(** * The JavaScript boundary (src/js/index.js) *)

(** Modelled from the spec: the object [wasm.parse_crx] returns ([crxInfo]
    in the source).  Its type is declared in the wasm module, which is not
    among the sources; the four properties are those the source reads, the
    [ContainerHeader] of section 3 as JavaScript sees it (one key, one
    signature, section 9). *)
Module Wasm.
Record CrxInfo : Type := mkCrxInfo {
  version : Z;
  public_key : bytes;
  signature : bytes;
  zip_offset : Z
}.
End Wasm.

(** * The exports as the specification describes them, and sample buffers *)

Module SpecWasm.
Import Core.

(** Modelled from the spec: what the two wasm exports throw, one value per
    error kind of section 7.  How the wasm module turns its errors into
    JavaScript values is not among the sources. *)
Inductive WasmErr : Set :=
  | ParseFailed (e : ParseError)
  | ExtractFailed (e : ExtractError).

(** Modelled from the spec: the record layout section 4.3 leaves open,
    fixed here for the sample buffers to the values of the published CRX3
    layout: tags [0x12] and [0x1a] carry a key proof, and inside a proof
    tag [0x0a] carries the public key and tag [0x12] the signature. *)
Definition field_kind (t : byte) : FieldKind :=
  if decide (t = x12 ∨ t = x1a) then AsymmetricKeyProof else UnknownField.

(** Modelled from the spec: the payload of the first record with tag [t]
    inside a key-proof record, itself read as a record stream. *)
Definition nested_field (t : byte) (proof : bytes) : bytes :=
  match decode_records (length proof) proof with
  | Ok fs => default [] (payload <$> head (filter (λ f, tag f = t) fs))
  | Err _ => []
  end.

(** Modelled from the spec: the public key of a key-proof record. *)
Definition proof_public_key : bytes → bytes := nested_field x0a.
(** Modelled from the spec: the signature of a key-proof record. *)
Definition proof_signature : bytes → bytes := nested_field x12.

(** Modelled from the spec: [parse_container] of section 6 with the record
    layout above. *)
Definition parse_container : bytes → result ParseError ContainerHeader :=
  Core.parse_container field_kind proof_public_key proof_signature.

(** Modelled from the spec: the object handed to JavaScript shows one key
    and one signature ("the visible integration always takes index 0",
    section 9). *)
Definition crx_info (h : ContainerHeader) : Wasm.CrxInfo :=
  Wasm.mkCrxInfo
    (match format_version h with CRX2 => 2 | CRX3 => 3 end)
    (default [] (head (public_keys h)))
    (default [] (head (signatures h)))
    (Z.of_N (zip_offset h)).

(** Modelled from the spec: the export [parse_crx], the [parse_container]
    of section 6 as JavaScript sees it. *)
Definition parse_crx (buf : bytes) : result WasmErr Wasm.CrxInfo :=
  match parse_container buf with
  | Ok h => Ok (crx_info h)
  | Err e => Err (ParseFailed e)
  end.

(** Modelled from the spec: the export [extract_zip_data], that is
    [parse_container] followed by [extract_payload], sections 4.2 and 6. *)
Definition extract_zip_data (buf : bytes) : result WasmErr bytes :=
  match parse_container buf with
  | Ok h =>
      match extract_payload buf h with
      | Ok zip => Ok zip
      | Err e => Err (ExtractFailed e)
      end
  | Err e => Err (ParseFailed e)
  end.

(** An export that hands out the bytes from the ZIP offset on and leaves
    the signature test to its caller, the case [extractZip]'s own test
    provides for. *)
Definition extract_from_offset (buf : bytes) : result WasmErr bytes :=
  match parse_container buf with
  | Ok h => Ok (drop (N.to_nat (zip_offset h)) buf)
  | Err e => Err (ParseFailed e)
  end.

(** Modelled from the spec: the message of a thrown error, the name of its
    kind in section 7. *)
Definition wasm_message (e : WasmErr) : string :=
  match e with
  | ParseFailed BadMagic => "BadMagic"
  | ParseFailed (UnsupportedVersion n) => "UnsupportedVersion(" +:+ pretty n +:+ ")"
  | ParseFailed Truncated => "Truncated"
  | ParseFailed LengthMismatch => "LengthMismatch"
  | ParseFailed TruncatedRecord => "TruncatedRecord"
  | ExtractFailed OffsetOutOfRange => "OffsetOutOfRange"
  | ExtractFailed EmptyPayload => "EmptyPayload"
  | ExtractFailed NotZip => "NotZip"
  end.
End SpecWasm.

(** * The page: values the script of the demo page works with
    (src/unnamed/part_000) *)

Module Dom.

(** A JavaScript string as its sequence of characters. *)
Abbreviation chars := String.list_ascii_of_string.
Abbreviation of_chars := String.string_of_list_ascii.

(** [l] begins with [pat]. *)
Fixpoint starts_with (pat l : list Ascii.ascii) : bool :=
  match pat, l with
  | [], _ => true
  | _ :: _, [] => false
  | p :: pat', c :: l' => bool_decide (p = c) && starts_with pat' l'
  end.

(** [String.prototype.replace(pat, rep)] with a string pattern: the first
    occurrence of [pat], if there is one, is replaced ([rep] is ".zip" in
    the script, which has no replacement pattern in it). *)
Fixpoint replace_first (pat rep l : list Ascii.ascii) : list Ascii.ascii :=
  if starts_with pat l then rep ++ drop (length pat) l
  else match l with
       | [] => []
       | c :: l' => c :: replace_first pat rep l'
       end.

(** Whether [pat] occurs in [l]. *)
Fixpoint occurs (pat l : list Ascii.ascii) : bool :=
  starts_with pat l ||
  match l with
  | [] => false
  | _ :: l' => occurs pat l'
  end.

(** Whether [pat] occurs nowhere in [pre ++ pat] before position
    [length pre]: the occurrence behind [pre] is the first. *)
Definition first_occurrence_after (pat pre : list Ascii.ascii) : bool :=
  forallb (λ i, negb (starts_with pat (drop i (pre ++ pat)))) (seq 0 (length pre)).

Definition js_replace (pat rep s : string) : string :=
  of_chars (replace_first (chars pat) (chars rep) (chars s)).

(** [String.prototype.endsWith(suffix)] *)
Definition js_endsWith (s suffix : string) : bool :=
  starts_with (reverse (chars suffix)) (reverse (chars s)).

(** A [File] of a file input or a drop: its name, and what a [FileReader]
    makes of it, the bytes or [reader.error] (as the text it has in a string
    concatenation). *)
Record File : Type := mkFile {
  file_name : string;
  file_read : result string bytes
}.

(** The object the page hands to [JSON.stringify]. *)
Record InfoSummary : Type := mkInfoSummary {
  info_filename : string;
  info_version : Z;
  info_publicKeySize : nat;
  info_signatureSize : nat;
  info_zipOffset : Z
}.

(** A download the page starts: the [download] attribute of the anchor it
    clicks, and the type and bytes of the [Blob] behind its [href]. *)
Record Download : Type := mkDownload {
  download_name : string;
  download_type : string;
  download_data : bytes
}.

(** The functions the script passes to [setTimeout]: there is one, which
    sets the status line to "Ready to parse CRX files". *)
Inductive Callback : Set := StatusReady.

(** What a user or the browser can do to the page: the events the script
    listens to, and a timer that fires. *)
Inductive PageEvent : Type :=
  | DropZoneClick
  | FileInputChange (files : list File)
  | DragOver
  | DragLeave
  | Drop (files : list File)
  | DownloadZipClick
  | TimerFires.

End Dom.

Module Samples.
Import Core.

Definition crx2 (key sig zip : bytes) : bytes :=
  CRX_MAGIC ++ u32_le 2 ++ u32_le (N.of_nat (length key))
    ++ u32_le (N.of_nat (length sig)) ++ key ++ sig ++ zip.

Definition crx3 (hlen : N) (after_preamble : bytes) : bytes :=
  CRX_MAGIC ++ u32_le 3 ++ u32_le hlen ++ after_preamble.

Definition KEY : bytes := ["k"; "e"; "y"]%byte.
Definition SIG : bytes := ["s"; "i"; "g"]%byte.
Definition ZIP : bytes := ["P"; "K"; x03; x04]%byte.

(** Scenario A of section 8 as it is written: version 2, key length 3,
    signature length 2, then the bytes of "key", "sig" and a ZIP. *)
Definition scenario_A : bytes :=
  CRX_MAGIC ++ u32_le 2 ++ u32_le 3 ++ u32_le 2 ++ KEY ++ SIG ++ ZIP.

(** One key-proof record of eight bytes: tag [0x12], length 6, and inside
    it a one-byte public key (tag [0x0a]) and a one-byte signature (tag
    [0x12]). *)
Definition proof_record : bytes := [x12; x06; x0a; x01; xaa; x12; x01; xbb].

(** A ZIP archive handed over as it is, without a CRX header. *)
Definition bare_zip : bytes := ZIP ++ ZIP.

(** The messages of the host's two [TypeError]s. *)
Definition UNINIT_MESSAGE : string := "wasm is undefined".
Definition FETCH_MESSAGE : string := "Failed to fetch".

(** [JSON.stringify(summary, null, 2)] for a file name that needs no
    escaping. *)
Definition QUOTE : string := String (Ascii.ascii_of_nat 34) EmptyString.
Definition NEWLINE : string := String (Ascii.ascii_of_nat 10) EmptyString.
Definition json_summary (i : Dom.InfoSummary) : string :=
  "{" +:+ NEWLINE +:+
  "  " +:+ QUOTE +:+ "filename" +:+ QUOTE +:+ ": "
       +:+ QUOTE +:+ Dom.info_filename i +:+ QUOTE +:+ "," +:+ NEWLINE +:+
  "  " +:+ QUOTE +:+ "version" +:+ QUOTE +:+ ": "
       +:+ pretty (Dom.info_version i) +:+ "," +:+ NEWLINE +:+
  "  " +:+ QUOTE +:+ "publicKeySize" +:+ QUOTE +:+ ": "
       +:+ pretty (Dom.info_publicKeySize i) +:+ "," +:+ NEWLINE +:+
  "  " +:+ QUOTE +:+ "signatureSize" +:+ QUOTE +:+ ": "
       +:+ pretty (Dom.info_signatureSize i) +:+ "," +:+ NEWLINE +:+
  "  " +:+ QUOTE +:+ "zipOffset" +:+ QUOTE +:+ ": "
       +:+ pretty (Dom.info_zipOffset i) +:+ NEWLINE +:+
  "}".

(** A file named "sample.crx" holding the CRX2 sample, one holding a bare
    ZIP, and one that cannot be read. *)
Definition crx_file : Dom.File :=
  Dom.mkFile "sample.crx" (Ok (crx2 KEY SIG ZIP)).
Definition bad_file : Dom.File :=
  Dom.mkFile "broken.crx" (Ok bare_zip).
Definition unreadable_file : Dom.File :=
  Dom.mkFile "gone.crx" (Err "NotReadableError").
Definition text_file : Dom.File :=
  Dom.mkFile "notes.txt" (Ok bare_zip).
End Samples.

Module Js.

(** ** Values *)

(** [ArrayBuffer]s live in a heap, addressed by location; a [Uint8Array]
    is a view of a whole buffer, so two views of one buffer alias. *)
Abbreviation loc := nat.

Record Uint8Array : Set := U8 { backing : loc }.

(** [TypedArray.prototype.slice(start, end)] on the contents: a negative
    index counts from the end, and both indices are clamped to the
    length. *)
Definition clamp_index (len i : Z) : Z :=
  if (i <? 0)%Z then Z.max (len + i) 0 else Z.min i len.

Definition js_slice (bs : bytes) (start : Z) (stop : option Z) : bytes :=
  let len := Z.of_nat (length bs) in
  let k := clamp_index len start in
  let final := match stop with None => len | Some e => clamp_index len e end in
  take (Z.to_nat (final - k)) (drop (Z.to_nat k) bs).

(** [b.toString(16).padStart(2, '0')] *)
Definition hex_digit (n : N) : string :=
  match n with
  | 0 => "0" | 1 => "1" | 2 => "2" | 3 => "3" | 4 => "4" | 5 => "5"
  | 6 => "6" | 7 => "7" | 8 => "8" | 9 => "9" | 10 => "a" | 11 => "b"
  | 12 => "c" | 13 => "d" | 14 => "e" | _ => "f"
  end%N.

Definition to_hex2 (b : byte) : string :=
  hex_digit (Byte.to_N b / 16) +:+ hex_digit (Byte.to_N b mod 16).

Section Boundary.

(** ** The parts of the wasm module the source relies on

    [../pkg/wasm_crx_parser.js] is generated and not among the sources.
    Its two exports are functions of the bytes handed to them: they
    return a value or throw one. *)
Variable WasmErr : Type.
Variable parse_crx : bytes → result WasmErr Wasm.CrxInfo.
Variable extract_zip_data : bytes → result WasmErr bytes.
(** What [error.message] contributes to a string concatenation for a
    value thrown by the wasm module (the text ["undefined"] if the value
    has no such property). *)
Variable wasm_message : WasmErr → string.
(** The messages of the host's [TypeError]s: an export called before the
    module is instantiated, and a module that cannot be fetched. *)
Variable uninit_message : string.
Variable fetch_message : string.

(** A thrown value: one thrown by a wasm export, or a JavaScript error
    object with its [name] and [message]. *)
Inductive Thrown : Type :=
  | WasmThrown (e : WasmErr)
  | JsError (name message : string).

Definition message_of (error : Thrown) : string :=
  match error with
  | WasmThrown e => wasm_message e
  | JsError _ message => message
  end.

(** ** The world a call runs in *)

Inductive Event : Type :=
  | EvInitWasm
  | EvWasmCall (export : string)
  | EvConsoleLog (args : list string)
  | EvConsoleError (text : string) (arg : option Thrown).

Record World : Type := mkWorld {
  heap : gmap loc bytes;
  (** the wasm instance, once [initWasm] has resolved *)
  wasm_loaded : bool;
  (** whether the module can be fetched and instantiated *)
  wasm_fetchable : bool;
  (** [let initialized = false; let initPromise = null;] *)
  initialized : bool;
  initPromise : option unit;
  (** calls into the wasm glue and console output, oldest first *)
  trace : list Event
}.

Definition initial_world (h : gmap loc bytes) (fetchable : bool) : World :=
  mkWorld h false fetchable false None [].

Definition set_heap (h : gmap loc bytes) (w : World) : World :=
  mkWorld h (wasm_loaded w) (wasm_fetchable w) (initialized w) (initPromise w) (trace w).
Definition set_wasm_loaded (b : bool) (w : World) : World :=
  mkWorld (heap w) b (wasm_fetchable w) (initialized w) (initPromise w) (trace w).
Definition emit (ev : Event) (w : World) : World :=
  mkWorld (heap w) (wasm_loaded w) (wasm_fetchable w) (initialized w) (initPromise w)
          (trace w ++ [ev]).

(** The contents of a typed array. *)
Definition contents (w : World) (a : Uint8Array) : bytes :=
  default [] (heap w !! backing a).

(** [a[i] = b]: a store through a view writes the buffer behind it; out
    of range it does nothing. *)
Definition store (a : Uint8Array) (i : nat) (b : byte) (w : World) : World :=
  set_heap (alter (λ bs, <[i := b]> bs) (backing a) (heap w)) w.

(** ** Computations: state and exceptions

    A method runs from a world to an outcome and a world; [Err] is a thrown
    value (for an [async] method, the rejection of its promise), and
    [await] is sequencing. *)

Definition JS (A : Type) : Type := World → result Thrown A * World.

Definition ret {A} (a : A) : JS A := λ w, (Ok a, w).
Definition throw {A} (e : Thrown) : JS A := λ w, (Err e, w).
Definition bind {A B} (m : JS A) (k : A → JS B) : JS B :=
  λ w, match m w with
       | (Ok a, w') => k a w'
       | (Err e, w') => (Err e, w')
       end.
(** [try { body } catch (error) { handler }] *)
Definition try_catch {A} (body : JS A) (handler : Thrown → JS A) : JS A :=
  λ w, match body w with
       | (Ok a, w') => (Ok a, w')
       | (Err e, w') => handler e w'
       end.

#[local] Notation "x <- m ;; k" := (bind m (λ x, k))
  (at level 100, m at next level, right associativity).
#[local] Notation "m ;;; k" := (bind m (λ _, k))
  (at level 100, right associativity).

Definition log (ev : Event) : JS unit := λ w, (Ok (), emit ev w).
Definition console_log (args : list string) : JS unit := log (EvConsoleLog args).
Definition console_error (text : string) (arg : option Thrown) : JS unit :=
  log (EvConsoleError text arg).

(** Allocation of a fresh [ArrayBuffer] with the given contents. *)
Definition alloc (bs : bytes) : JS loc :=
  λ w, let l := fresh (dom (heap w)) in (Ok l, set_heap (<[l := bs]> (heap w)) w).

Definition u8_read (a : Uint8Array) : JS bytes := λ w, (Ok (contents w a), w).

(** [new Uint8Array(buffer)] on an [ArrayBuffer]: a view, nothing is
    copied. *)
Definition new_Uint8Array_view (buffer : loc) : JS Uint8Array := ret (U8 buffer).

(** [new Uint8Array(typedArray)]: a fresh buffer with a copy of the
    elements. *)
Definition new_Uint8Array_copy (a : Uint8Array) : JS Uint8Array :=
  bs <- u8_read a ;; l <- alloc bs ;; ret (U8 l).

(** [a.slice(start, end)]: a fresh typed array. *)
Definition u8_slice (a : Uint8Array) (start : Z) (stop : option Z) : JS Uint8Array :=
  bs <- u8_read a ;; l <- alloc (js_slice bs start stop) ;; ret (U8 l).

(** [a[i]]: [None] stands for [undefined]. *)
Definition u8_get (a : Uint8Array) (i : nat) : JS (option byte) :=
  bs <- u8_read a ;; ret (bs !! i).

(** ** The generated glue, [../pkg/wasm_crx_parser.js] *)

(** Modelled from the spec: the default export of the glue, the "one-time
    module-initialization step before parsing is available" of section 9.
    The glue is generated and not among the sources.  It instantiates the
    module unless it is there already, and fails when the module cannot be
    fetched. *)
Definition initWasm : JS unit :=
  log EvInitWasm ;;;
  λ w, if wasm_loaded w then (Ok (), w)
       else if wasm_fetchable w then (Ok (), set_wasm_loaded true w)
       else (Err (JsError "TypeError" fetch_message), w).

(** Modelled from the spec: a call of an export through the glue.  The
    bytes of the argument are handed to the wasm function ("calls into the
    core with a byte buffer and receives back a structured result or an
    error", section 1); before the initialization step there is no
    instance, and the call is a [TypeError]. *)
Definition wasm_call {A} (export : string) (f : bytes → result WasmErr A)
    (arg : Uint8Array) : JS A :=
  log (EvWasmCall export) ;;;
  λ w, if wasm_loaded w
       then match f (contents w arg) with
            | Ok a => (Ok a, w)
            | Err e => (Err (WasmThrown e), w)
            end
       else (Err (JsError "TypeError" uninit_message), w).

(** Modelled from the spec: [wasm.parse_crx(bytes)]. *)
Definition wasm_parse_crx (arg : Uint8Array) : JS Wasm.CrxInfo :=
  wasm_call "parse_crx" parse_crx arg.

(** Modelled from the spec: [wasm.extract_zip_data(bytes)].  The bytes the
    export returns arrive as a typed array of their own ("freshly allocated
    output with no shared backing state", section 5). *)
Definition wasm_extract_zip_data (arg : Uint8Array) : JS Uint8Array :=
  bs <- wasm_call "extract_zip_data" extract_zip_data arg ;;
  l <- alloc bs ;; ret (U8 l).

(** Modelled from the spec: [crxInfo.public_key]; the access yields a
    typed array of its own (section 5, as above). *)
Definition get_public_key (crxInfo : Wasm.CrxInfo) : JS Uint8Array :=
  l <- alloc (Wasm.public_key crxInfo) ;; ret (U8 l).
(** Modelled from the spec: [crxInfo.signature], likewise. *)
Definition get_signature (crxInfo : Wasm.CrxInfo) : JS Uint8Array :=
  l <- alloc (Wasm.signature crxInfo) ;; ret (U8 l).

(** ** [class CrxParser] *)

(** The object [parse] resolves to. *)
Record ParsedCrx : Set := mkParsedCrx {
  version : Z;
  publicKey : Uint8Array;
  signature : Uint8Array;
  zipOffset : Z
}.

(** [static async initialize()] *)
Definition initialize : JS unit := initWasm.

(** [static async parse(buffer)] *)
Definition parse (buffer : loc) : JS ParsedCrx :=
  initialize ;;;
  bytes <- new_Uint8Array_view buffer ;;
  crxInfo <- wasm_parse_crx bytes ;;
  public_key <- get_public_key crxInfo ;;
  publicKey <- new_Uint8Array_copy public_key ;;
  signature <- get_signature crxInfo ;;
  signature' <- new_Uint8Array_copy signature ;;
  ret (mkParsedCrx (Wasm.version crxInfo) publicKey signature'
                   (Wasm.zip_offset crxInfo)).

Definition NOT_ZIP_MESSAGE : string :=
  "Extracted data is not a valid ZIP file (missing signature)".

(** [zipData[0] === 0x50 && zipData[1] === 0x4B] *)
Definition has_pk_signature (b0 b1 : option byte) : bool :=
  bool_decide (b0 = Some x50) && bool_decide (b1 = Some x4b).

(** [static extractZip(buffer)] *)
Definition extractZip (buffer : loc) : JS Uint8Array :=
  bytes <- new_Uint8Array_view buffer ;;
  try_catch
    (zipData <- wasm_extract_zip_data bytes ;;
     b0 <- u8_get zipData 0 ;;
     b1 <- u8_get zipData 1 ;;
     if negb (has_pk_signature b0 b1)
     then
       console_error "Invalid ZIP header - missing PK signature" None ;;;
       throw (JsError "Error" NOT_ZIP_MESSAGE)
     else
       first20 <- u8_slice zipData 0 (Some 20%Z) ;;
       shown <- u8_read first20 ;;
       console_log ["ZIP header bytes:"; String.concat " " (to_hex2 <$> shown)] ;;;
       ret zipData)
    (λ error,
       console_error "ZIP extraction error:" (Some error) ;;;
       throw error).

(** [static manualExtractZip(bytes)] *)
Definition manualExtractZip (bytes : Uint8Array) : JS Uint8Array :=
  try_catch
    (crxInfo <- wasm_parse_crx bytes ;;
     let zipOffset := Wasm.zip_offset crxInfo in
     console_log ["Manual extraction: ZIP data starts at offset " +:+ pretty zipOffset] ;;;
     u8_slice bytes zipOffset None)
    (λ error,
       console_error "Error in manual ZIP extraction:" (Some error) ;;;
       throw (JsError "Error" ("Failed to extract ZIP data: " +:+ message_of error))).

(** ** Names for the outcomes and worlds the properties speak of *)

Definition manual_log (zipOffset : Z) : Event :=
  EvConsoleLog ["Manual extraction: ZIP data starts at offset " +:+ pretty zipOffset].

Definition manual_failure (error : Thrown) : Thrown :=
  JsError "Error" ("Failed to extract ZIP data: " +:+ message_of error).

Definition uninit_error : Thrown := JsError "TypeError" uninit_message.

Definition not_zip_error : Thrown := JsError "Error" NOT_ZIP_MESSAGE.

Definition zip_header_log (zipData : bytes) : Event :=
  EvConsoleLog ["ZIP header bytes:";
                String.concat " " (to_hex2 <$> js_slice zipData 0 (Some 20%Z))].

(** Whether [initWasm] can succeed, and the world it leaves. *)
Definition can_init (w : World) : bool := wasm_loaded w || wasm_fetchable w.

Definition after_init (w : World) : World :=
  set_wasm_loaded true (emit EvInitWasm w).

Definition fetch_error : Thrown := JsError "TypeError" fetch_message.

Definition alloc_heap (h : gmap loc bytes) (bs : bytes) : gmap loc bytes :=
  <[fresh (dom h) := bs]> h.

Definition is_console (ev : Event) : Prop :=
  match ev with
  | EvConsoleLog _ | EvConsoleError _ _ => True
  | EvInitWasm | EvWasmCall _ => False
  end.

(** The module-level variables and the wasm instance of two worlds
    agree. *)
Definition same_module_state (w w' : World) : Prop :=
  initialized w' = initialized w ∧ initPromise w' = initPromise w ∧
  wasm_fetchable w' = wasm_fetchable w.

(** What a caller can see of a parse result: the two scalars and the
    contents of the two arrays. *)
Definition snapshot (w : World) (r : ParsedCrx) : Z * bytes * bytes * Z :=
  (version r, contents w (publicKey r), contents w (signature r), zipOffset r).

Definition observe (run : result Thrown ParsedCrx * World)
  : result Thrown (Z * bytes * bytes * Z) :=
  match run with
  | (Ok r, w) => Ok (snapshot w r)
  | (Err e, _) => Err e
  end.

(** The outcome of [parse], as a function of the bytes of the buffer. *)
Definition parse_outcome (ready : bool) (input : bytes)
  : result Thrown (Z * bytes * bytes * Z) :=
  if ready then
    match parse_crx input with
    | Ok info => Ok (Wasm.version info, Wasm.public_key info,
                     Wasm.signature info, Wasm.zip_offset info)
    | Err e => Err (WasmThrown e)
    end
  else Err fetch_error.

(** A world in which the module is loaded already. *)
Definition ready_world (h : gmap loc bytes) : World :=
  mkWorld h true true false None [].

(** ** The page script (src/unnamed/part_000)

    The script of the demo page, over the page's state: the world the
    parser runs in, the two variables of the script, the properties of the
    elements it reads and writes, and what it sets going (timers, the file
    dialog, downloads). *)

(** [JSON.stringify(value, null, 2)], a function of the host, at the one
    object the script passes to it. *)
Variable json_stringify : Dom.InfoSummary → string.

Record Page : Type := mkPage {
  world : World;
  (** [let crxBuffer = null; let filename = '';] *)
  crxBuffer : option loc;
  filename : string;
  (** [textContent] and [style.color] of [#initStatus] *)
  initStatus_text : string;
  initStatus_color : string;
  (** the class [hidden] of [#initProgress] *)
  initProgress_hidden : bool;
  (** the class [highlight] of [#dropZone] *)
  dropZone_highlight : bool;
  (** [textContent] and the class [hidden] of [#errorContainer] *)
  errorContainer_text : string;
  errorContainer_hidden : bool;
  (** the class [hidden] of [#resultContainer] *)
  resultContainer_hidden : bool;
  (** [textContent] of [#crxInfo] *)
  crxInfo_text : string;
  (** [disabled] and [textContent] of [#downloadZip] *)
  downloadZip_disabled : bool;
  downloadZip_text : string;
  (** pending [setTimeout] calls, oldest first, with their delay *)
  timers : list (N * Dom.Callback);
  (** how often [fileInput.click()] has opened the file dialog *)
  file_dialogs : nat;
  (** the downloads started, oldest first *)
  downloads : list Dom.Download
}.

(** The page as the document declares it, before the script runs. *)
Definition initial_page (w : World) : Page :=
  mkPage w None "" "Initializing WebAssembly module..." "" true false "" true true ""
         false "Extract ZIP Content" [] 0 [].

Definition set_world (x : World) (p : Page) : Page :=
  mkPage x (crxBuffer p) (filename p) (initStatus_text p) (initStatus_color p)
    (initProgress_hidden p) (dropZone_highlight p) (errorContainer_text p)
    (errorContainer_hidden p) (resultContainer_hidden p) (crxInfo_text p)
    (downloadZip_disabled p) (downloadZip_text p) (timers p) (file_dialogs p) (downloads p).
Definition set_crxBuffer (x : option loc) (p : Page) : Page :=
  mkPage (world p) x (filename p) (initStatus_text p) (initStatus_color p)
    (initProgress_hidden p) (dropZone_highlight p) (errorContainer_text p)
    (errorContainer_hidden p) (resultContainer_hidden p) (crxInfo_text p)
    (downloadZip_disabled p) (downloadZip_text p) (timers p) (file_dialogs p) (downloads p).
Definition set_filename (x : string) (p : Page) : Page :=
  mkPage (world p) (crxBuffer p) x (initStatus_text p) (initStatus_color p)
    (initProgress_hidden p) (dropZone_highlight p) (errorContainer_text p)
    (errorContainer_hidden p) (resultContainer_hidden p) (crxInfo_text p)
    (downloadZip_disabled p) (downloadZip_text p) (timers p) (file_dialogs p) (downloads p).
Definition set_initStatus_text (x : string) (p : Page) : Page :=
  mkPage (world p) (crxBuffer p) (filename p) x (initStatus_color p)
    (initProgress_hidden p) (dropZone_highlight p) (errorContainer_text p)
    (errorContainer_hidden p) (resultContainer_hidden p) (crxInfo_text p)
    (downloadZip_disabled p) (downloadZip_text p) (timers p) (file_dialogs p) (downloads p).
Definition set_initStatus_color (x : string) (p : Page) : Page :=
  mkPage (world p) (crxBuffer p) (filename p) (initStatus_text p) x
    (initProgress_hidden p) (dropZone_highlight p) (errorContainer_text p)
    (errorContainer_hidden p) (resultContainer_hidden p) (crxInfo_text p)
    (downloadZip_disabled p) (downloadZip_text p) (timers p) (file_dialogs p) (downloads p).
Definition set_initProgress_hidden (x : bool) (p : Page) : Page :=
  mkPage (world p) (crxBuffer p) (filename p) (initStatus_text p) (initStatus_color p)
    x (dropZone_highlight p) (errorContainer_text p)
    (errorContainer_hidden p) (resultContainer_hidden p) (crxInfo_text p)
    (downloadZip_disabled p) (downloadZip_text p) (timers p) (file_dialogs p) (downloads p).
Definition set_dropZone_highlight (x : bool) (p : Page) : Page :=
  mkPage (world p) (crxBuffer p) (filename p) (initStatus_text p) (initStatus_color p)
    (initProgress_hidden p) x (errorContainer_text p)
    (errorContainer_hidden p) (resultContainer_hidden p) (crxInfo_text p)
    (downloadZip_disabled p) (downloadZip_text p) (timers p) (file_dialogs p) (downloads p).
Definition set_errorContainer_text (x : string) (p : Page) : Page :=
  mkPage (world p) (crxBuffer p) (filename p) (initStatus_text p) (initStatus_color p)
    (initProgress_hidden p) (dropZone_highlight p) x
    (errorContainer_hidden p) (resultContainer_hidden p) (crxInfo_text p)
    (downloadZip_disabled p) (downloadZip_text p) (timers p) (file_dialogs p) (downloads p).
Definition set_errorContainer_hidden (x : bool) (p : Page) : Page :=
  mkPage (world p) (crxBuffer p) (filename p) (initStatus_text p) (initStatus_color p)
    (initProgress_hidden p) (dropZone_highlight p) (errorContainer_text p)
    x (resultContainer_hidden p) (crxInfo_text p)
    (downloadZip_disabled p) (downloadZip_text p) (timers p) (file_dialogs p) (downloads p).
Definition set_resultContainer_hidden (x : bool) (p : Page) : Page :=
  mkPage (world p) (crxBuffer p) (filename p) (initStatus_text p) (initStatus_color p)
    (initProgress_hidden p) (dropZone_highlight p) (errorContainer_text p)
    (errorContainer_hidden p) x (crxInfo_text p)
    (downloadZip_disabled p) (downloadZip_text p) (timers p) (file_dialogs p) (downloads p).
Definition set_crxInfo_text (x : string) (p : Page) : Page :=
  mkPage (world p) (crxBuffer p) (filename p) (initStatus_text p) (initStatus_color p)
    (initProgress_hidden p) (dropZone_highlight p) (errorContainer_text p)
    (errorContainer_hidden p) (resultContainer_hidden p) x
    (downloadZip_disabled p) (downloadZip_text p) (timers p) (file_dialogs p) (downloads p).
Definition set_downloadZip_disabled (x : bool) (p : Page) : Page :=
  mkPage (world p) (crxBuffer p) (filename p) (initStatus_text p) (initStatus_color p)
    (initProgress_hidden p) (dropZone_highlight p) (errorContainer_text p)
    (errorContainer_hidden p) (resultContainer_hidden p) (crxInfo_text p)
    x (downloadZip_text p) (timers p) (file_dialogs p) (downloads p).
Definition set_downloadZip_text (x : string) (p : Page) : Page :=
  mkPage (world p) (crxBuffer p) (filename p) (initStatus_text p) (initStatus_color p)
    (initProgress_hidden p) (dropZone_highlight p) (errorContainer_text p)
    (errorContainer_hidden p) (resultContainer_hidden p) (crxInfo_text p)
    (downloadZip_disabled p) x (timers p) (file_dialogs p) (downloads p).
Definition set_timers (x : list (N * Dom.Callback)) (p : Page) : Page :=
  mkPage (world p) (crxBuffer p) (filename p) (initStatus_text p) (initStatus_color p)
    (initProgress_hidden p) (dropZone_highlight p) (errorContainer_text p)
    (errorContainer_hidden p) (resultContainer_hidden p) (crxInfo_text p)
    (downloadZip_disabled p) (downloadZip_text p) x (file_dialogs p) (downloads p).
Definition set_file_dialogs (x : nat) (p : Page) : Page :=
  mkPage (world p) (crxBuffer p) (filename p) (initStatus_text p) (initStatus_color p)
    (initProgress_hidden p) (dropZone_highlight p) (errorContainer_text p)
    (errorContainer_hidden p) (resultContainer_hidden p) (crxInfo_text p)
    (downloadZip_disabled p) (downloadZip_text p) (timers p) x (downloads p).
Definition set_downloads (x : list Dom.Download) (p : Page) : Page :=
  mkPage (world p) (crxBuffer p) (filename p) (initStatus_text p) (initStatus_color p)
    (initProgress_hidden p) (dropZone_highlight p) (errorContainer_text p)
    (errorContainer_hidden p) (resultContainer_hidden p) (crxInfo_text p)
    (downloadZip_disabled p) (downloadZip_text p) (timers p) (file_dialogs p) x.

(** Computations of the script: from a page to an outcome and a page. *)
Definition UI (A : Type) : Type := Page → result Thrown A * Page.

Definition ui_ret {A} (a : A) : UI A := λ p, (Ok a, p).
Definition ui_bind {A B} (m : UI A) (k : A → UI B) : UI B :=
  λ p, match m p with
       | (Ok a, p') => k a p'
       | (Err e, p') => (Err e, p')
       end.
(** [try { body } catch (error) { handler }] *)
Definition ui_try_catch {A} (body : UI A) (handler : Thrown → UI A) : UI A :=
  λ p, match body p with
       | (Ok a, p') => (Ok a, p')
       | (Err e, p') => handler e p'
       end.
(** [... finally { finalizer }]: the finalizer runs whatever the outcome,
    which stands unless the finalizer throws. *)
Definition ui_finally {A} (body : UI A) (finalizer : UI unit) : UI A :=
  λ p, match body p with
       | (r, p') =>
           match finalizer p' with
           | (Ok _, p'') => (r, p'')
           | (Err e, p'') => (Err e, p'')
           end
       end.

#[local] Notation "x <~ m ;; k" := (ui_bind m (λ x, k))
  (at level 100, m at next level, right associativity).
#[local] Notation "m >>> k" := (ui_bind m (λ _, k))
  (at level 100, right associativity).

(** A call into [CrxParser] or the console: it runs in the page's world. *)
Definition call {A} (m : JS A) : UI A :=
  λ p, match m (world p) with (r, w') => (r, set_world w' p) end.
Definition modify (f : Page → Page) : UI unit := λ p, (Ok (), f p).
Definition ui_get {A} (f : Page → A) : UI A := λ p, (Ok (f p), p).

(** [a.length] *)
Definition u8_length (a : Uint8Array) : JS nat :=
  bs <- u8_read a ;; ret (length bs).

(** [function showError(message)] *)
Definition showError (message : string) : UI unit :=
  modify (set_errorContainer_text message) >>>
  modify (set_errorContainer_hidden false).

(** [function clearError()] *)
Definition clearError : UI unit :=
  modify (set_errorContainer_text "") >>>
  modify (set_errorContainer_hidden true).

(** [async function init()] *)
Definition init : UI unit :=
  ui_finally
    (ui_try_catch
       (modify (set_initProgress_hidden false) >>>
        call initialize >>>
        modify (set_initStatus_text "✓ WebAssembly module loaded successfully!") >>>
        modify (set_initStatus_color "green") >>>
        modify (λ p, set_timers (timers p ++ [(2000%N, Dom.StatusReady)]) p))
       (λ error,
          call (console_error "WebAssembly initialization failed:" (Some error)) >>>
          modify (set_initStatus_text
                    ("✗ Failed to load WebAssembly module: " +:+ message_of error)) >>>
          modify (set_initStatus_color "red") >>>
          showError "WebAssembly initialization failed. Please check console for details."))
    (modify (set_initProgress_hidden true)).

(** The callbacks given to [setTimeout]. *)
Definition run_callback (cb : Dom.Callback) : UI unit :=
  match cb with
  | Dom.StatusReady => modify (set_initStatus_text "Ready to parse CRX files")
  end.

(** [async function processCrxFile(buffer, name)] *)
Definition processCrxFile (buffer : loc) (name : string) : UI unit :=
  ui_try_catch
    (clearError >>>
     modify (set_resultContainer_hidden true) >>>
     modify (set_crxBuffer (Some buffer)) >>>
     modify (set_filename name) >>>
     crxInfo <~ call (parse buffer) ;;
     publicKeySize <~ call (u8_length (publicKey crxInfo)) ;;
     signatureSize <~ call (u8_length (signature crxInfo)) ;;
     let infoText :=
       json_stringify
         (Dom.mkInfoSummary name (version crxInfo) publicKeySize signatureSize
                            (zipOffset crxInfo)) in
     modify (set_crxInfo_text infoText) >>>
     modify (set_resultContainer_hidden false))
    (λ error,
       call (console_error "Error parsing CRX:" (Some error)) >>>
       showError ("Failed to parse CRX file: " +:+ message_of error)).

(** [async function extractZipContent()].  The blob is a copy of the
    extracted bytes; the anchor that is made, clicked and removed, and the
    object URL that is made and revoked, are recorded as the download they
    start. *)
Definition extractZipContent : UI unit :=
  crx <~ ui_get crxBuffer ;;
  match crx with
  | None => ui_ret ()
  | Some buffer =>
      ui_finally
        (ui_try_catch
           (modify (set_downloadZip_disabled true) >>>
            modify (set_downloadZip_text "Extracting...") >>>
            zipData <~ call (extractZip buffer) ;;
            blob <~ call (u8_read zipData) ;;
            name <~ ui_get filename ;;
            modify (λ p, set_downloads
                           (downloads p ++
                              [Dom.mkDownload (Dom.js_replace ".crx" ".zip" name)
                                              "application/zip" blob]) p))
           (λ error,
              call (console_error "Error extracting ZIP:" (Some error)) >>>
              showError ("Failed to extract ZIP content: " +:+ message_of error)))
        (modify (set_downloadZip_disabled false) >>>
         modify (set_downloadZip_text "Extract ZIP Content"))
  end.

(** [function handleFileSelect(file)]; [None] is a missing file.  The
    reader's [onload] or [onerror] runs when the file has been read. *)
Definition handleFileSelect (file : option Dom.File) : UI unit :=
  match file with
  | None => ui_ret ()
  | Some f =>
      if negb (Dom.js_endsWith (Dom.file_name f) ".crx")
      then showError "Please select a valid .crx file."
      else
        match Dom.file_read f with
        | Ok data =>
            buffer <~ call (alloc data) ;;
            processCrxFile buffer (Dom.file_name f)
        | Err reader_error => showError ("Error reading file: " +:+ reader_error)
        end
  end.

(** The event listeners of the script, and a timer firing. *)
Definition dispatch (ev : Dom.PageEvent) : UI unit :=
  match ev with
  | Dom.DropZoneClick => modify (λ p, set_file_dialogs (S (file_dialogs p)) p)
  | Dom.FileInputChange files =>
      match files with
      | [] => ui_ret ()
      | file :: _ => handleFileSelect (Some file)
      end
  | Dom.DragOver => modify (set_dropZone_highlight true)
  | Dom.DragLeave => modify (set_dropZone_highlight false)
  | Dom.Drop files =>
      modify (set_dropZone_highlight false) >>>
      match files with
      | [] => ui_ret ()
      | file :: _ => handleFileSelect (Some file)
      end
  | Dom.DownloadZipClick => extractZipContent
  | Dom.TimerFires =>
      λ p, match timers p with
           | [] => (Ok (), p)
           | (_, cb) :: rest => run_callback cb (set_timers rest p)
           end
  end.

(** The page after the script has run ([init()] is its last statement) and
    after a sequence of events.  A listener runs to its end before the next
    event is taken: the [await]s inside the async functions are not modelled
    as points where another event comes in. *)
Definition loaded_page (w : World) : Page := snd (init (initial_page w)).

Definition after_events (evs : list Dom.PageEvent) (p : Page) : Page :=
  foldl (λ p ev, snd (dispatch ev p)) p evs.

(** The button as [extractZipContent] sets it while it works and as its
    [finally] leaves it. *)
Definition button_busy (p : Page) : Page :=
  set_downloadZip_text "Extracting..." (set_downloadZip_disabled true p).
Definition button_restored (p : Page) : Page :=
  set_downloadZip_text "Extract ZIP Content" (set_downloadZip_disabled false p).

(** The object [processCrxFile] shows for a parsed file. *)
Definition summary_of (name : string) (info : Wasm.CrxInfo) : Dom.InfoSummary :=
  Dom.mkInfoSummary name (Wasm.version info) (length (Wasm.public_key info))
    (length (Wasm.signature info)) (Wasm.zip_offset info).

(** The info panel shows the parse of the buffer [crxBuffer] holds, under
    the name [filename] holds. *)
Definition shows_parse_of_crxBuffer (p : Page) : Prop :=
  ∃ b info,
    crxBuffer p = Some b ∧
    parse_crx (contents (world p) (U8 b)) = Ok info ∧
    crxInfo_text p = json_stringify (summary_of (filename p) info).

(** A download as the page is meant to start it: a ZIP, named after a
    [.crx] file. *)
Definition download_ok (d : Dom.Download) : Prop :=
  Dom.download_type d = "application/zip" ∧
  looks_like_zip (Dom.download_data d) = true ∧
  (∃ crx, extract_zip_data crx = Ok (Dom.download_data d)) ∧
  ∃ name, Dom.js_endsWith name ".crx" = true ∧
          Dom.download_name d = Dom.js_replace ".crx" ".zip" name.

(** What holds of the page between any two events. *)
Definition page_ok (p : Page) : Prop :=
  downloadZip_disabled p = false ∧
  downloadZip_text p = "Extract ZIP Content" ∧
  initProgress_hidden p = true ∧
  (∀ b, crxBuffer p = Some b →
     is_Some (heap (world p) !! b) ∧ Dom.js_endsWith (filename p) ".crx" = true) ∧
  (resultContainer_hidden p = false →
     wasm_loaded (world p) = true ∧ shows_parse_of_crxBuffer p) ∧
  Forall download_ok (downloads p).

(** The three texts of the status line. *)
Definition STATUS_LOADED : string := "✓ WebAssembly module loaded successfully!".
Definition STATUS_READY : string := "Ready to parse CRX files".
Definition STATUS_FAILED : string :=
  "✗ Failed to load WebAssembly module: " +:+ fetch_message.

(** The file an event hands to [handleFileSelect]. *)
Definition selected_file (ev : Dom.PageEvent) : option Dom.File :=
  match ev with
  | Dom.FileInputChange files | Dom.Drop files => head files
  | _ => None
  end.

(** Whether [handleFileSelect] gets as far as [processCrxFile] with a file. *)
Definition is_processed (f : Dom.File) : bool :=
  Dom.js_endsWith (Dom.file_name f) ".crx" && is_ok (Dom.file_read f).

(** Whether the listener of an event on a page gets as far as a call into
    [CrxParser]: a file that is handed on to [processCrxFile], or a click on
    the extract button when a buffer is remembered. *)
Definition calls_CrxParser (ev : Dom.PageEvent) (p : Page) : bool :=
  match ev with
  | Dom.DownloadZipClick => bool_decide (is_Some (crxBuffer p))
  | _ => from_option is_processed false (selected_file ev)
  end.

(** What [handleFileSelect] shows for a file it does not hand on. *)
Definition rejection_message (f : Dom.File) : string :=
  if Dom.js_endsWith (Dom.file_name f) ".crx"
  then match Dom.file_read f with
       | Ok _ => ""
       | Err reader_error => "Error reading file: " +:+ reader_error
       end
  else "Please select a valid .crx file.".

(** Whether a timer fires among the events. *)
Definition timer_fires (evs : list Dom.PageEvent) : bool :=
  existsb (λ ev, match ev with Dom.TimerFires => true | _ => false end) evs.

(** ** Running the methods: one equation per path *)

Lemma fresh_loc_unused (h : gmap loc bytes) : h !! fresh (dom h) = None.
Proof. apply not_elem_of_dom, is_fresh. Qed.

Lemma alloc_keeps (h : gmap loc bytes) (bs : bytes) :
  h ⊆ <[fresh (dom h) := bs]> h.
Proof. apply insert_subseteq, fresh_loc_unused. Qed.

(** Unfolds a method down to the world it is run in. *)
Ltac run_method :=
  unfold manualExtractZip, extractZip, try_catch, new_Uint8Array_view,
    wasm_parse_crx, wasm_extract_zip_data, wasm_call, console_log, console_error,
    log, u8_get, u8_slice, u8_read, alloc, throw, ret, bind;
  cbn [wasm_loaded emit heap].

Lemma contents_emit (ev : Event) (w : World) (a : Uint8Array) :
  contents (emit ev w) a = contents w a.
Proof. reflexivity. Qed.

Lemma contents_set_wasm_loaded (b : bool) (w : World) (a : Uint8Array) :
  contents (set_wasm_loaded b w) a = contents w a.
Proof. reflexivity. Qed.

Lemma contents_alloc_new (h : gmap loc bytes) (bs : bytes) (w : World) :
  contents (set_heap (<[fresh (dom h) := bs]> h) w) (U8 (fresh (dom h))) = bs.
Proof. unfold contents. simpl. by rewrite lookup_insert_eq. Qed.

(** A buffer that exists keeps its contents when the heap grows. *)
Lemma contents_extend (w w' : World) (a : Uint8Array) :
  heap w ⊆ heap w' → is_Some (heap w !! backing a) →
  contents w' a = contents w a.
Proof.
  intros Hsub [bs Hbs]. unfold contents.
  by rewrite (lookup_weaken _ _ _ _ Hbs Hsub), Hbs.
Qed.

Lemma manualExtractZip_returns (a : Uint8Array) (w : World) (info : Wasm.CrxInfo) :
  wasm_loaded w = true →
  parse_crx (contents w a) = Ok info →
  manualExtractZip a w =
    (Ok (U8 (fresh (dom (heap w)))),
     set_heap (<[fresh (dom (heap w)) :=
                   js_slice (contents w a) (Wasm.zip_offset info) None]> (heap w))
       (emit (manual_log (Wasm.zip_offset info)) (emit (EvWasmCall "parse_crx") w))).
Proof.
  intros Hl Hp. run_method. rewrite Hl, contents_emit, Hp. reflexivity.
Qed.

Lemma manualExtractZip_wasm_throws (a : Uint8Array) (w : World) (e : WasmErr) :
  wasm_loaded w = true →
  parse_crx (contents w a) = Err e →
  manualExtractZip a w =
    (Err (manual_failure (WasmThrown e)),
     emit (EvConsoleError "Error in manual ZIP extraction:" (Some (WasmThrown e)))
       (emit (EvWasmCall "parse_crx") w)).
Proof.
  intros Hl Hp. run_method. rewrite Hl, contents_emit, Hp. reflexivity.
Qed.

Lemma manualExtractZip_uninit (a : Uint8Array) (w : World) :
  wasm_loaded w = false →
  manualExtractZip a w =
    (Err (manual_failure uninit_error),
     emit (EvConsoleError "Error in manual ZIP extraction:" (Some uninit_error))
       (emit (EvWasmCall "parse_crx") w)).
Proof.
  intros Hl. run_method. rewrite Hl. reflexivity.
Qed.

Lemma extractZip_returns (buffer : loc) (w : World) (zipData : bytes) :
  wasm_loaded w = true →
  extract_zip_data (contents w (U8 buffer)) = Ok zipData →
  has_pk_signature (zipData !! 0%nat) (zipData !! 1%nat) = true →
  let l := fresh (dom (heap w)) in
  let h1 := <[l := zipData]> (heap w) in
  extractZip buffer w =
    (Ok (U8 l),
     emit (zip_header_log zipData)
       (set_heap (<[fresh (dom h1) := js_slice zipData 0 (Some 20%Z)]> h1)
          (emit (EvWasmCall "extract_zip_data") w))).
Proof.
  intros Hl Hx Hpk. run_method. rewrite Hl, contents_emit, Hx.
  cbn [heap set_heap emit]. rewrite !contents_alloc_new. rewrite Hpk.
  cbn [negb heap set_heap emit]. rewrite !contents_alloc_new. reflexivity.
Qed.

Lemma extractZip_not_zip (buffer : loc) (w : World) (zipData : bytes) :
  wasm_loaded w = true →
  extract_zip_data (contents w (U8 buffer)) = Ok zipData →
  has_pk_signature (zipData !! 0%nat) (zipData !! 1%nat) = false →
  extractZip buffer w =
    (Err not_zip_error,
     emit (EvConsoleError "ZIP extraction error:" (Some not_zip_error))
       (emit (EvConsoleError "Invalid ZIP header - missing PK signature" None)
          (set_heap (<[fresh (dom (heap w)) := zipData]> (heap w))
             (emit (EvWasmCall "extract_zip_data") w)))).
Proof.
  intros Hl Hx Hpk. run_method. rewrite Hl, contents_emit, Hx.
  cbn [heap set_heap emit]. rewrite !contents_alloc_new. rewrite Hpk.
  reflexivity.
Qed.

Lemma extractZip_wasm_throws (buffer : loc) (w : World) (e : WasmErr) :
  wasm_loaded w = true →
  extract_zip_data (contents w (U8 buffer)) = Err e →
  extractZip buffer w =
    (Err (WasmThrown e),
     emit (EvConsoleError "ZIP extraction error:" (Some (WasmThrown e)))
       (emit (EvWasmCall "extract_zip_data") w)).
Proof.
  intros Hl Hx. run_method. rewrite Hl, contents_emit, Hx. reflexivity.
Qed.

Lemma extractZip_uninit (buffer : loc) (w : World) :
  wasm_loaded w = false →
  extractZip buffer w =
    (Err uninit_error,
     emit (EvConsoleError "ZIP extraction error:" (Some uninit_error))
       (emit (EvWasmCall "extract_zip_data") w)).
Proof.
  intros Hl. run_method. rewrite Hl. reflexivity.
Qed.

Lemma initialize_ok (w : World) :
  can_init w = true → initialize w = (Ok (), after_init w).
Proof.
  unfold can_init, initialize, initWasm, bind, log, after_init.
  destruct w as [h [] [] i p t]; simpl; intros; done.
Qed.

Lemma initialize_fails (w : World) :
  can_init w = false → initialize w = (Err fetch_error, emit EvInitWasm w).
Proof.
  unfold can_init, initialize, initWasm, bind, log.
  destruct w as [h [] [] i p t]; simpl; intros; done.
Qed.

Lemma parse_init_fails (buffer : loc) (w : World) :
  can_init w = false →
  parse buffer w = (Err fetch_error, emit EvInitWasm w).
Proof.
  intros Hi. unfold parse, bind at 1. by rewrite (initialize_fails _ Hi).
Qed.

Lemma parse_wasm_throws (buffer : loc) (w : World) (e : WasmErr) :
  can_init w = true →
  parse_crx (contents w (U8 buffer)) = Err e →
  parse buffer w =
    (Err (WasmThrown e), emit (EvWasmCall "parse_crx") (after_init w)).
Proof.
  intros Hi Hp. unfold parse, bind at 1. rewrite (initialize_ok _ Hi).
  unfold bind, new_Uint8Array_view, ret, wasm_parse_crx, wasm_call, bind, log.
  cbn [wasm_loaded emit after_init set_wasm_loaded].
  change (contents _ (U8 buffer)) with (contents w (U8 buffer)).
  by rewrite Hp.
Qed.

Lemma parse_returns (buffer : loc) (w : World) (info : Wasm.CrxInfo) :
  can_init w = true →
  parse_crx (contents w (U8 buffer)) = Ok info →
  let h1 := alloc_heap (heap w) (Wasm.public_key info) in
  let h2 := alloc_heap h1 (Wasm.public_key info) in
  let h3 := alloc_heap h2 (Wasm.signature info) in
  let h4 := alloc_heap h3 (Wasm.signature info) in
  parse buffer w =
    (Ok (mkParsedCrx (Wasm.version info) (U8 (fresh (dom h1)))
                     (U8 (fresh (dom h3))) (Wasm.zip_offset info)),
     set_heap h4 (emit (EvWasmCall "parse_crx") (after_init w))).
Proof.
  intros Hi Hp. unfold parse, bind at 1. rewrite (initialize_ok _ Hi).
  unfold bind, new_Uint8Array_view, ret, wasm_parse_crx, wasm_call, bind, log,
    get_public_key, get_signature, new_Uint8Array_copy, bind, u8_read, alloc, ret.
  cbn [wasm_loaded emit after_init set_wasm_loaded].
  change (contents _ (U8 buffer)) with (contents w (U8 buffer)).
  rewrite Hp. cbn [heap set_heap emit set_wasm_loaded].
  rewrite !contents_alloc_new. reflexivity.
Qed.

(** ** Heap facts for the allocations *)

Lemma alloc_heap_old (h : gmap loc bytes) (bs : bytes) (l : loc) :
  is_Some (h !! l) → alloc_heap h bs !! l = h !! l.
Proof.
  intros [x Hx]. unfold alloc_heap. apply lookup_insert_ne.
  intros Heq. rewrite <- Heq, fresh_loc_unused in Hx. discriminate.
Qed.

Lemma alloc_heap_new (h : gmap loc bytes) (bs : bytes) :
  alloc_heap h bs !! fresh (dom h) = Some bs.
Proof. apply lookup_insert_eq. Qed.

Lemma alloc_heap_subseteq (h : gmap loc bytes) (bs : bytes) :
  h ⊆ alloc_heap h bs.
Proof. apply alloc_keeps. Qed.

(** A store through one array leaves an array on another buffer as it
    was. *)
Lemma contents_store_other (a c : Uint8Array) (i : nat) (b : byte) (w : World) :
  backing a ≠ backing c → contents (store a i b w) c = contents w c.
Proof.
  intros Hne. unfold contents, store. cbn [heap set_heap].
  by rewrite lookup_alter_ne.
Qed.

(** ** Inversion: what each outcome of a method tells *)

Lemma has_pk_signature_true (b0 b1 : option byte) :
  has_pk_signature b0 b1 = true ↔ b0 = Some x50 ∧ b1 = Some x4b.
Proof.
  unfold has_pk_signature.
  rewrite andb_true_iff, !bool_decide_eq_true. done.
Qed.

Lemma has_pk_signature_short (zipData : bytes) :
  (length zipData < 2)%nat →
  has_pk_signature (zipData !! 0%nat) (zipData !! 1%nat) = false.
Proof.
  intros Hlen. apply not_true_iff_false. rewrite has_pk_signature_true.
  intros [_ H1]. apply lookup_lt_Some in H1. lia.
Qed.

Lemma extractZip_Ok_inv (buffer : loc) (w w' : World) (r : Uint8Array) :
  extractZip buffer w = (Ok r, w') →
  wasm_loaded w = true ∧ heap w !! backing r = None ∧ heap w ⊆ heap w' ∧
  ∃ zipData,
    extract_zip_data (contents w (U8 buffer)) = Ok zipData ∧
    has_pk_signature (zipData !! 0%nat) (zipData !! 1%nat) = true ∧
    contents w' r = zipData.
Proof.
  destruct (wasm_loaded w) eqn:Hl; [|by rewrite extractZip_uninit].
  destruct (extract_zip_data (contents w (U8 buffer))) as [zipData|e] eqn:Hx;
    [|by rewrite (extractZip_wasm_throws _ _ _ Hl Hx)].
  destruct (has_pk_signature (zipData !! 0%nat) (zipData !! 1%nat)) eqn:Hpk;
    [|by rewrite (extractZip_not_zip _ _ _ Hl Hx Hpk)].
  rewrite (extractZip_returns _ _ _ Hl Hx Hpk). intros [= <- <-].
  cbn [backing heap emit set_heap]. repeat split.
  - apply fresh_loc_unused.
  - etrans; apply alloc_keeps.
  - exists zipData. split; [done|]. split; [done|].
    unfold contents. cbn [heap emit set_heap backing].
    fold (alloc_heap (heap w) zipData).
    fold (alloc_heap (alloc_heap (heap w) zipData) (js_slice zipData 0 (Some 20%Z))).
    rewrite alloc_heap_old; by rewrite alloc_heap_new.
Qed.

Lemma extractZip_Err_inv (buffer : loc) (w w' : World) (e : Thrown) :
  extractZip buffer w = (Err e, w') →
  (wasm_loaded w = false ∧ e = uninit_error) ∨
  (wasm_loaded w = true ∧
   ∃ we, extract_zip_data (contents w (U8 buffer)) = Err we ∧ e = WasmThrown we) ∨
  (wasm_loaded w = true ∧
   ∃ zipData, extract_zip_data (contents w (U8 buffer)) = Ok zipData ∧
     has_pk_signature (zipData !! 0%nat) (zipData !! 1%nat) = false ∧
     e = not_zip_error).
Proof.
  destruct (wasm_loaded w) eqn:Hl;
    [|rewrite (extractZip_uninit _ _ Hl); intros [= <- <-]; by left].
  destruct (extract_zip_data (contents w (U8 buffer))) as [zipData|we] eqn:Hx;
    [|rewrite (extractZip_wasm_throws _ _ _ Hl Hx); intros [= <- <-];
      right; left; eauto].
  destruct (has_pk_signature (zipData !! 0%nat) (zipData !! 1%nat)) eqn:Hpk;
    [by rewrite (extractZip_returns _ _ _ Hl Hx Hpk)|].
  rewrite (extractZip_not_zip _ _ _ Hl Hx Hpk). intros [= <- <-].
  right; right; eauto.
Qed.

Lemma manualExtractZip_Ok_inv (bytes : Uint8Array) (w w' : World) (r : Uint8Array) :
  manualExtractZip bytes w = (Ok r, w') →
  wasm_loaded w = true ∧ heap w !! backing r = None ∧ heap w ⊆ heap w' ∧
  ∃ info, parse_crx (contents w bytes) = Ok info ∧
    contents w' r = js_slice (contents w bytes) (Wasm.zip_offset info) None.
Proof.
  destruct (wasm_loaded w) eqn:Hl; [|by rewrite manualExtractZip_uninit].
  destruct (parse_crx (contents w bytes)) as [info|e] eqn:Hp;
    [|by rewrite (manualExtractZip_wasm_throws _ _ _ Hl Hp)].
  rewrite (manualExtractZip_returns _ _ _ Hl Hp). intros [= <- <-].
  cbn [backing heap emit set_heap]. repeat split.
  - apply fresh_loc_unused.
  - apply alloc_keeps.
  - exists info. split; [done|]. apply contents_alloc_new.
Qed.

Lemma manualExtractZip_Err_inv (bytes : Uint8Array) (w w' : World) (e : Thrown) :
  manualExtractZip bytes w = (Err e, w') →
  ∃ cause, e = manual_failure cause ∧
    ((wasm_loaded w = false ∧ cause = uninit_error) ∨
     (wasm_loaded w = true ∧
      ∃ we, parse_crx (contents w bytes) = Err we ∧ cause = WasmThrown we)).
Proof.
  destruct (wasm_loaded w) eqn:Hl;
    [|rewrite (manualExtractZip_uninit _ _ Hl); intros [= <- <-]; eauto].
  destruct (parse_crx (contents w bytes)) as [info|we] eqn:Hp;
    [by rewrite (manualExtractZip_returns _ _ _ Hl Hp)|].
  rewrite (manualExtractZip_wasm_throws _ _ _ Hl Hp). intros [= <- <-].
  eexists; split; [done|]. right. eauto.
Qed.

Lemma parse_Err_inv (buffer : loc) (w w' : World) (e : Thrown) :
  parse buffer w = (Err e, w') →
  (can_init w = false ∧ e = fetch_error) ∨
  (can_init w = true ∧
   ∃ we, parse_crx (contents w (U8 buffer)) = Err we ∧ e = WasmThrown we).
Proof.
  destruct (can_init w) eqn:Hi;
    [|rewrite (parse_init_fails _ _ Hi); intros [= <- <-]; by left].
  destruct (parse_crx (contents w (U8 buffer))) as [info|we] eqn:Hp;
    [by rewrite (parse_returns _ _ _ Hi Hp)|].
  rewrite (parse_wasm_throws _ _ _ Hi Hp). intros [= <- <-]. right; eauto.
Qed.

(** ** [slice] without an end index *)

Lemma js_slice_from (bs : bytes) (start : Z) :
  (0 ≤ start)%Z → js_slice bs start None = drop (Z.to_nat start) bs.
Proof.
  intros Hs. unfold js_slice, clamp_index.
  destruct (Z.ltb_spec start 0) as [|_]; [lia|].
  destruct (Z.le_gt_cases start (Z.of_nat (length bs))) as [Hle|Hgt].
  - rewrite Z.min_l by done. apply take_ge. rewrite length_drop. lia.
  - rewrite Z.min_r by lia. rewrite Z.sub_diag. simpl.
    symmetry. apply drop_ge. lia.
Qed.

Lemma js_slice_past_end (bs : bytes) (start : Z) :
  (Z.of_nat (length bs) ≤ start)%Z → js_slice bs start None = [].
Proof.
  intros Hs. rewrite js_slice_from by lia. apply drop_ge. lia.
Qed.

(** ** Properties of [extractZip] and [manualExtractZip] *)

(** C1 (as amended): [manualExtractZip] takes the buffer only and gets
    the offset from [wasm.parse_crx]; it makes no bounds check of its
    own.  When [parse_crx] returns an offset, the method returns normally
    a fresh array holding [bytes.slice(zipOffset)]: for an offset that is
    not negative this is the buffer from that offset on, hence empty when
    the offset is at or past the end, and possibly shorter than two
    bytes.  It fails only when the wasm call fails, and then with the
    generic [Error("Failed to extract ZIP data: " + message)]. *)
Theorem manualExtractZip_slices_without_checks (bytes : Uint8Array) (w : World) :
  (∀ info, wasm_loaded w = true → parse_crx (contents w bytes) = Ok info →
     ∃ r w', manualExtractZip bytes w = (Ok r, w') ∧
       heap w !! backing r = None ∧
       contents w' r = js_slice (contents w bytes) (Wasm.zip_offset info) None ∧
       ((0 ≤ Wasm.zip_offset info)%Z →
          contents w' r = drop (Z.to_nat (Wasm.zip_offset info)) (contents w bytes)) ∧
       ((Z.of_nat (length (contents w bytes)) ≤ Wasm.zip_offset info)%Z →
          contents w' r = [])) ∧
  (∀ e, wasm_loaded w = true → parse_crx (contents w bytes) = Err e →
     ∃ w', manualExtractZip bytes w = (Err (manual_failure (WasmThrown e)), w')) ∧
  (wasm_loaded w = false →
     ∃ w', manualExtractZip bytes w = (Err (manual_failure uninit_error), w')).
Proof.
  split; [|split].
  - intros info Hl Hp. rewrite (manualExtractZip_returns _ _ _ Hl Hp).
    eexists _, _. split; [done|]. cbn [backing]. rewrite contents_alloc_new.
    split; [apply fresh_loc_unused|]. split; [done|].
    split; [apply js_slice_from | apply js_slice_past_end].
  - intros e Hl Hp. rewrite (manualExtractZip_wasm_throws _ _ _ Hl Hp). eauto.
  - intros Hl. rewrite (manualExtractZip_uninit _ _ Hl). eauto.
Qed.

(** C2: [extractZip] checks the first two bytes of the payload it got
    from [wasm.extract_zip_data] against [0x50], [0x4B].  It returns the
    payload only when they match, and when they do not it throws the
    "not a valid ZIP file" error instead of returning: the failure is
    fatal. *)
Theorem extractZip_checks_pk_signature (buffer : loc) (w : World) :
  (∀ r w', extractZip buffer w = (Ok r, w') →
     extract_zip_data (contents w (U8 buffer)) = Ok (contents w' r) ∧
     contents w' r !! 0%nat = Some x50 ∧ contents w' r !! 1%nat = Some x4b) ∧
  (∀ zipData, wasm_loaded w = true →
     extract_zip_data (contents w (U8 buffer)) = Ok zipData →
     ¬ (zipData !! 0%nat = Some x50 ∧ zipData !! 1%nat = Some x4b) →
     ∃ w', extractZip buffer w = (Err not_zip_error, w') ∧
           ∀ r w'', extractZip buffer w ≠ (Ok r, w'')).
Proof.
  split.
  - intros r w' Hrun.
    apply extractZip_Ok_inv in Hrun as (_ & _ & _ & zipData & Hx & Hpk & ->).
    by apply has_pk_signature_true in Hpk as [??].
  - intros zipData Hl Hx Hno.
    assert (has_pk_signature (zipData !! 0%nat) (zipData !! 1%nat) = false) as Hpk
      by (by apply not_true_iff_false; rewrite has_pk_signature_true).
    rewrite (extractZip_not_zip _ _ _ Hl Hx Hpk). eauto.
Qed.

(** C8: when [extractZip] returns normally, the array it returns has at
    least two elements and starts with [0x50], [0x4B].  A payload of
    fewer than two bytes fails the very same test (an index out of range
    reads [undefined]) and is rejected with the same thrown error as a
    payload with a wrong signature: this layer has no error of its own
    for an empty payload. *)
Theorem extractZip_rejects_short_payload (buffer : loc) (w : World) :
  (∀ r w', extractZip buffer w = (Ok r, w') →
     (2 ≤ length (contents w' r))%nat ∧
     contents w' r !! 0%nat = Some x50 ∧ contents w' r !! 1%nat = Some x4b) ∧
  (∀ zipData, wasm_loaded w = true →
     extract_zip_data (contents w (U8 buffer)) = Ok zipData →
     (length zipData < 2)%nat →
     zipData !! 1%nat = None ∧
     has_pk_signature (zipData !! 0%nat) (zipData !! 1%nat) = false ∧
     ∃ w', extractZip buffer w = (Err not_zip_error, w')) ∧
  (∀ zipData, wasm_loaded w = true →
     extract_zip_data (contents w (U8 buffer)) = Ok zipData →
     (2 ≤ length zipData)%nat →
     has_pk_signature (zipData !! 0%nat) (zipData !! 1%nat) = false →
     ∃ w', extractZip buffer w = (Err not_zip_error, w')).
Proof.
  split; [|split].
  - intros r w' Hrun.
    apply extractZip_Ok_inv in Hrun as (_ & _ & _ & zipData & Hx & Hpk & ->).
    apply has_pk_signature_true in Hpk as [H0 H1].
    split; [|done]. apply lookup_lt_Some in H1. lia.
  - intros zipData Hl Hx Hlen.
    pose proof (has_pk_signature_short _ Hlen) as Hpk.
    split; [apply lookup_ge_None; lia|]. split; [done|].
    rewrite (extractZip_not_zip _ _ _ Hl Hx Hpk). eauto.
  - intros zipData Hl Hx _ Hpk.
    rewrite (extractZip_not_zip _ _ _ Hl Hx Hpk). eauto.
Qed.

(** C6 (as amended): a failure of [parse], [extractZip] or
    [manualExtractZip] reaches the caller as a thrown value (a rejected
    promise for [parse]), never as a returned one.  [parse] and
    [extractZip] pass on unchanged what the wasm export threw;
    [extractZip] throws the one "not a valid ZIP file" error for any
    payload without the PK signature; [manualExtractZip] replaces
    whatever was thrown by a generic [Error] that keeps only the message
    text.  [extractZip] never returns a payload without the signature. *)
Theorem failures_are_thrown_values (w : World) :
  (∀ buffer e w', parse buffer w = (Err e, w') →
     e = fetch_error ∨
     ∃ we, parse_crx (contents w (U8 buffer)) = Err we ∧ e = WasmThrown we) ∧
  (∀ buffer e w', extractZip buffer w = (Err e, w') →
     e = uninit_error ∨ e = not_zip_error ∨
     ∃ we, extract_zip_data (contents w (U8 buffer)) = Err we ∧ e = WasmThrown we) ∧
  (∀ bytes e w', manualExtractZip bytes w = (Err e, w') →
     ∃ cause, e = JsError "Error" ("Failed to extract ZIP data: " +:+ message_of cause) ∧
       (cause = uninit_error ∨
        ∃ we, parse_crx (contents w bytes) = Err we ∧ cause = WasmThrown we)) ∧
  (∀ buffer r w', extractZip buffer w = (Ok r, w') →
     looks_like_zip (contents w' r) = true).
Proof.
  split; [|split; [|split]].
  - intros buffer e w' Hrun.
    apply parse_Err_inv in Hrun as [[_ ->] | (_ & we & ? & ->)]; eauto.
  - intros buffer e w' Hrun.
    apply extractZip_Err_inv in Hrun
      as [[_ ->] | [(_ & we & ? & ->) | (_ & zipData & _ & _ & ->)]]; eauto.
  - intros bytes e w' Hrun.
    apply manualExtractZip_Err_inv in Hrun
      as (cause & -> & [[_ ->] | (_ & we & ? & ->)]);
      (eexists; split; [reflexivity|]); eauto.
  - intros buffer r w' Hrun.
    apply extractZip_Ok_inv in Hrun as (_ & _ & _ & zipData & Hx & Hpk & ->).
    apply has_pk_signature_true in Hpk. unfold looks_like_zip.
    by apply bool_decide_eq_true.
Qed.

(** ** What a call leaves behind *)

Lemma subseteq_unused (h h' : gmap loc bytes) (l : loc) :
  h ⊆ h' → h' !! l = None → h !! l = None.
Proof.
  intros Hsub Hl. destruct (h !! l) as [bs|] eqn:Hbs; [|done].
  by rewrite (lookup_weaken _ _ _ _ Hbs Hsub) in Hl.
Qed.

Lemma parse_Ok_inv (buffer : loc) (w w' : World) (r : ParsedCrx) :
  parse buffer w = (Ok r, w') →
  can_init w = true ∧
  ∃ info, parse_crx (contents w (U8 buffer)) = Ok info ∧
    version r = Wasm.version info ∧ zipOffset r = Wasm.zip_offset info ∧
    heap w' !! backing (publicKey r) = Some (Wasm.public_key info) ∧
    heap w' !! backing (signature r) = Some (Wasm.signature info) ∧
    heap w !! backing (publicKey r) = None ∧
    heap w !! backing (signature r) = None ∧
    backing (publicKey r) ≠ backing (signature r).
Proof.
  destruct (can_init w) eqn:Hi; [|by rewrite parse_init_fails].
  destruct (parse_crx (contents w (U8 buffer))) as [info|e] eqn:Hp;
    [|by rewrite (parse_wasm_throws _ _ _ Hi Hp)].
  rewrite (parse_returns _ _ _ Hi Hp). cbv zeta. intros [= <- <-].
  split; [done|]. exists info. cbn [version zipOffset publicKey signature backing heap
    set_heap emit after_init set_wasm_loaded].
  set (h1 := alloc_heap (heap w) (Wasm.public_key info)).
  set (h2 := alloc_heap h1 (Wasm.public_key info)).
  set (h3 := alloc_heap h2 (Wasm.signature info)).
  set (h4 := alloc_heap h3 (Wasm.signature info)).
  assert (H2 : h2 !! fresh (dom h1) = Some (Wasm.public_key info))
    by apply alloc_heap_new.
  assert (H3 : h3 !! fresh (dom h1) = Some (Wasm.public_key info))
    by (unfold h3; rewrite alloc_heap_old; [done | by rewrite H2]).
  assert (H4 : h4 !! fresh (dom h1) = Some (Wasm.public_key info))
    by (unfold h4; rewrite alloc_heap_old; [done | by rewrite H3]).
  repeat (split; [done|]). split; [apply alloc_heap_new|].
  split; [|split].
  - apply (subseteq_unused _ h1); [apply alloc_heap_subseteq | apply fresh_loc_unused].
  - apply (subseteq_unused _ h3); [|apply fresh_loc_unused].
    etrans; [apply alloc_heap_subseteq|]. etrans; apply alloc_heap_subseteq.
  - intros Heq. pose proof (fresh_loc_unused h3) as Hn.
    rewrite <- Heq, H3 in Hn. discriminate.
Qed.

Lemma parse_world (buffer : loc) (w w' : World) (o : result Thrown ParsedCrx) :
  parse buffer w = (o, w') →
  wasm_loaded w' = can_init w ∧ same_module_state w w' ∧ heap w ⊆ heap w' ∧
  ((can_init w = false ∧ trace w' = trace w ++ [EvInitWasm]) ∨
   (can_init w = true ∧ trace w' = trace w ++ [EvInitWasm; EvWasmCall "parse_crx"])).
Proof.
  destruct (can_init w) eqn:Hi.
  - assert (Htr : ∀ h, trace (set_heap h (emit (EvWasmCall "parse_crx") (after_init w)))
                     = trace w ++ [EvInitWasm; EvWasmCall "parse_crx"]).
    { intros h. simpl. by rewrite <- app_assoc. }
    destruct (parse_crx (contents w (U8 buffer))) as [info|e] eqn:Hp.
    + rewrite (parse_returns _ _ _ Hi Hp). cbv zeta. intros [= <- <-].
      rewrite Htr. repeat split; [|by right].
      cbn [heap set_heap]. etrans; [apply alloc_heap_subseteq|].
      etrans; [apply alloc_heap_subseteq|]. etrans; apply alloc_heap_subseteq.
    + rewrite (parse_wasm_throws _ _ _ Hi Hp). intros [= <- <-].
      repeat split; [|right; split; [done|]; simpl; by rewrite <- app_assoc].
      done.
  - rewrite (parse_init_fails _ _ Hi). intros [= <- <-].
    unfold can_init in Hi. apply orb_false_elim in Hi as [Hl _].
    repeat split; [done | done | by left].
Qed.

Lemma extractZip_world (buffer : loc) (w w' : World) (o : result Thrown Uint8Array) :
  extractZip buffer w = (o, w') →
  wasm_loaded w' = wasm_loaded w ∧ same_module_state w w' ∧ heap w ⊆ heap w' ∧
  ∃ rest, trace w' = trace w ++ EvWasmCall "extract_zip_data" :: rest ∧
          Forall is_console rest.
Proof.
  destruct (wasm_loaded w) eqn:Hl.
  - destruct (extract_zip_data (contents w (U8 buffer))) as [zipData|e] eqn:Hx.
    + destruct (has_pk_signature (zipData !! 0%nat) (zipData !! 1%nat)) eqn:Hpk.
      * rewrite (extractZip_returns _ _ _ Hl Hx Hpk). cbv zeta. intros [= <- <-].
        repeat split; [done | etrans; apply alloc_keeps |].
        eexists [_]. simpl. rewrite <- app_assoc. split; [done|].
        by repeat constructor.
      * rewrite (extractZip_not_zip _ _ _ Hl Hx Hpk). intros [= <- <-].
        repeat split; [done | apply alloc_keeps |].
        eexists [_; _]. simpl. rewrite <- !app_assoc. split; [done|].
        by repeat constructor.
    + rewrite (extractZip_wasm_throws _ _ _ Hl Hx). intros [= <- <-].
      repeat split; [done | done |].
      eexists [_]. simpl. rewrite <- app_assoc. split; [done|].
      by repeat constructor.
  - rewrite (extractZip_uninit _ _ Hl). intros [= <- <-].
    repeat split; [done | done |].
    eexists [_]. simpl. rewrite <- app_assoc. split; [done|].
    by repeat constructor.
Qed.

Lemma manualExtractZip_world (bytes : Uint8Array) (w w' : World)
    (o : result Thrown Uint8Array) :
  manualExtractZip bytes w = (o, w') →
  wasm_loaded w' = wasm_loaded w ∧ same_module_state w w' ∧ heap w ⊆ heap w' ∧
  ∃ rest, trace w' = trace w ++ EvWasmCall "parse_crx" :: rest ∧
          Forall is_console rest.
Proof.
  destruct (wasm_loaded w) eqn:Hl.
  - destruct (parse_crx (contents w bytes)) as [info|e] eqn:Hp.
    + rewrite (manualExtractZip_returns _ _ _ Hl Hp). intros [= <- <-].
      repeat split; [done | apply alloc_keeps |].
      eexists [_]. simpl. rewrite <- app_assoc. split; [done|].
      by repeat constructor.
    + rewrite (manualExtractZip_wasm_throws _ _ _ Hl Hp). intros [= <- <-].
      repeat split; [done | done |].
      eexists [_]. simpl. rewrite <- app_assoc. split; [done|].
      by repeat constructor.
  - rewrite (manualExtractZip_uninit _ _ Hl). intros [= <- <-].
    repeat split; [done | done |].
    eexists [_]. simpl. rewrite <- app_assoc. split; [done|].
    by repeat constructor.
Qed.

Lemma initialize_world (w w' : World) (o : result Thrown unit) :
  initialize w = (o, w') →
  wasm_loaded w' = can_init w ∧ same_module_state w w' ∧ heap w' = heap w ∧
  trace w' = trace w ++ [EvInitWasm].
Proof.
  destruct (can_init w) eqn:Hi.
  - rewrite (initialize_ok _ Hi). intros [= <- <-]. done.
  - rewrite (initialize_fails _ Hi). intros [= <- <-].
    unfold can_init in Hi. apply orb_false_elim in Hi as [Hl _]. done.
Qed.

(** ** Purity, initialization and aliasing *)

Lemma parse_observe (buffer : loc) (w : World) :
  observe (parse buffer w) = parse_outcome (can_init w) (contents w (U8 buffer)).
Proof.
  unfold parse_outcome. destruct (parse buffer w) as [[r|e] w'] eqn:Hrun; simpl.
  - apply parse_Ok_inv in Hrun
      as (-> & info & -> & Hv & Hz & Hpk & Hsg & _).
    unfold snapshot, contents. by rewrite Hv, Hz, Hpk, Hsg.
  - apply parse_Err_inv in Hrun as [[-> ->] | (-> & we & -> & ->)]; done.
Qed.


(** C9: [parse] initializes the wasm module on every call, before it
    calls [parse_crx], so it works in a world where nothing was set up;
    [extractZip] and [manualExtractZip] call the wasm export at once and
    never initialize, so they fail when the module is not loaded and reach
    the export once an earlier [initialize] or [parse] has loaded it; and
    no method writes [initialized] or [initPromise]. *)
Theorem initialization_discipline (w : World) :
  (∀ buffer o w', parse buffer w = (o, w') →
     ∃ later, trace w' = trace w ++ EvInitWasm :: later ∧
       (later = [] ∧ can_init w = false ∧ o = Err fetch_error ∨
        later = [EvWasmCall "parse_crx"] ∧ wasm_loaded w' = true ∧
        (is_ok o = true ∨ ∃ we, o = Err (WasmThrown we)))) ∧
  (∀ buffer, wasm_fetchable w = true →
     observe (parse buffer w) =
     parse_outcome true (contents w (U8 buffer))) ∧
  (∀ buffer o w', extractZip buffer w = (o, w') →
     wasm_loaded w' = wasm_loaded w ∧
     (∃ later, trace w' = trace w ++ EvWasmCall "extract_zip_data" :: later ∧
               EvInitWasm ∉ later) ∧
     (wasm_loaded w = false → o = Err uninit_error)) ∧
  (∀ bytes o w', manualExtractZip bytes w = (o, w') →
     wasm_loaded w' = wasm_loaded w ∧
     (∃ later, trace w' = trace w ++ EvWasmCall "parse_crx" :: later ∧
               EvInitWasm ∉ later) ∧
     (wasm_loaded w = false → o = Err (manual_failure uninit_error))) ∧
  (∀ o w', initialize w = (o, w') → is_ok o = true → wasm_loaded w' = true) ∧
  (∀ buffer o w', parse buffer w = (o, w') → o ≠ Err fetch_error →
     wasm_loaded w' = true) ∧
  (wasm_loaded w = true → ∀ buffer o w', extractZip buffer w = (o, w') →
     is_ok o = true ∨ o = Err not_zip_error ∨
     ∃ we, extract_zip_data (contents w (U8 buffer)) = Err we ∧ o = Err (WasmThrown we)) ∧
  (wasm_loaded w = true → ∀ bytes o w', manualExtractZip bytes w = (o, w') →
     is_ok o = true ∨
     ∃ we, parse_crx (contents w bytes) = Err we ∧
           o = Err (manual_failure (WasmThrown we))) ∧
  (∀ o w', initialize w = (o, w') →
     initialized w' = initialized w ∧ initPromise w' = initPromise w) ∧
  (∀ buffer o w', parse buffer w = (o, w') →
     initialized w' = initialized w ∧ initPromise w' = initPromise w) ∧
  (∀ buffer o w', extractZip buffer w = (o, w') →
     initialized w' = initialized w ∧ initPromise w' = initPromise w) ∧
  (∀ bytes o w', manualExtractZip bytes w = (o, w') →
     initialized w' = initialized w ∧ initPromise w' = initPromise w).
Proof.
  assert (Hcons : ∀ later, Forall is_console later → EvInitWasm ∉ later).
  { intros later Hall Hin. by apply (proj1 (Forall_forall _ _) Hall) in Hin. }
  repeat match goal with |- _ ∧ _ => split end.
  - intros buffer o w' Hrun.
    pose proof (parse_world _ _ _ _ Hrun) as (Hl & _ & _ & Htr).
    destruct Htr as [[Hi ->] | [Hi ->]]; eexists; (split; [done|]).
    + left. rewrite (parse_init_fails _ _ Hi) in Hrun. by injection Hrun as <- _.
    + right. rewrite Hl, Hi. do 2 (split; [done|]).
      destruct o as [r|e]; [by left|]. right.
      apply parse_Err_inv in Hrun as [[Hn _] | (_ & we & _ & ->)]; [congruence|eauto].
  - intros buffer Hf. rewrite parse_observe. unfold can_init. rewrite Hf.
    by rewrite orb_true_r.
  - intros buffer o w' Hrun.
    pose proof (extractZip_world _ _ _ _ Hrun) as (Hl & _ & _ & later & Htr & Hall).
    split; [done|]. split; [eauto|].
    intros Hun. rewrite (extractZip_uninit _ _ Hun) in Hrun. by injection Hrun as <- _.
  - intros bytes o w' Hrun.
    pose proof (manualExtractZip_world _ _ _ _ Hrun)
      as (Hl & _ & _ & later & Htr & Hall).
    split; [done|]. split; [eauto|].
    intros Hun. rewrite (manualExtractZip_uninit _ _ Hun) in Hrun.
    by injection Hrun as <- _.
  - intros o w' Hrun Hok. apply initialize_world in Hrun as Hw.
    destruct Hw as (-> & _). destruct (can_init w) eqn:Hi; [done|].
    rewrite (initialize_fails _ Hi) in Hrun. injection Hrun as <- _. done.
  - intros buffer o w' Hrun Hne.
    pose proof (parse_world _ _ _ _ Hrun) as (-> & _).
    destruct (can_init w) eqn:Hi; [done|].
    rewrite (parse_init_fails _ _ Hi) in Hrun. injection Hrun as <- _. done.
  - intros Hl buffer o w' Hrun. destruct o as [r|e]; [by left|]. right.
    apply extractZip_Err_inv in Hrun
      as [[Hn _] | [(_ & we & ? & ->) | (_ & zipData & _ & _ & ->)]];
      [congruence | right; eauto | by left].
  - intros Hl bytes o w' Hrun. destruct o as [r|e]; [by left|]. right.
    apply manualExtractZip_Err_inv in Hrun
      as (cause & -> & [[Hn _] | (_ & we & ? & ->)]); [congruence | eauto].
  - intros o w' Hrun. by apply initialize_world in Hrun as (_ & (? & ? & _) & _).
  - intros buffer o w' Hrun. by apply parse_world in Hrun as (_ & (? & ? & _) & _).
  - intros buffer o w' Hrun.
    by apply extractZip_world in Hrun as (_ & (? & ? & _) & _).
  - intros bytes o w' Hrun.
    by apply manualExtractZip_world in Hrun as (_ & (? & ? & _) & _).
Qed.


(** ** More on the methods of [CrxParser] *)

Lemma js_slice_drop (bs : bytes) (start : Z) :
  js_slice bs start None
  = drop (Z.to_nat (clamp_index (Z.of_nat (length bs)) start)) bs.
Proof.
  unfold js_slice. apply take_ge. rewrite length_drop.
  assert (0 ≤ clamp_index (Z.of_nat (length bs)) start)%Z; [|lia].
  unfold clamp_index. destruct (Z.ltb_spec start 0); lia.
Qed.


(** X2: what [extractZip] and [manualExtractZip] throw is on the console
    first.  The value [extractZip] throws is the argument of its last
    [console.error]; a payload without the PK signature is reported twice,
    once by the test and once by the [catch] around it.
    [manualExtractZip] logs the value it caught, which the [Error] it
    throws instead keeps the message of.  A call that returns logs no
    error. *)
Theorem failures_are_logged_before_they_are_thrown (w : World) :
  (∀ buffer e w', extractZip buffer w = (Err e, w') →
     ∃ earlier, trace w' = earlier ++ [EvConsoleError "ZIP extraction error:" (Some e)]) ∧
  (∀ buffer zipData w',
     wasm_loaded w = true →
     extract_zip_data (contents w (U8 buffer)) = Ok zipData →
     extractZip buffer w = (Err not_zip_error, w') →
     trace w' = trace w ++
       [EvWasmCall "extract_zip_data";
        EvConsoleError "Invalid ZIP header - missing PK signature" None;
        EvConsoleError "ZIP extraction error:" (Some not_zip_error)]) ∧
  (∀ buffer r w', extractZip buffer w = (Ok r, w') →
     trace w' = trace w ++
       [EvWasmCall "extract_zip_data"; zip_header_log (contents w' r)]) ∧
  (∀ bytes e w', manualExtractZip bytes w = (Err e, w') →
     ∃ cause, e = manual_failure cause ∧
       trace w' = trace w ++
         [EvWasmCall "parse_crx";
          EvConsoleError "Error in manual ZIP extraction:" (Some cause)]) ∧
  (∀ bytes r w', manualExtractZip bytes w = (Ok r, w') →
     ∃ info, parse_crx (contents w bytes) = Ok info ∧
       trace w' = trace w ++ [EvWasmCall "parse_crx"; manual_log (Wasm.zip_offset info)]).
Proof.
  split; [|split; [|split; [|split]]].
  - intros buffer e w' Hrun.
    destruct (wasm_loaded w) eqn:Hl.
    + destruct (extract_zip_data (contents w (U8 buffer))) as [zipData|we] eqn:Hx.
      * destruct (has_pk_signature (zipData !! 0%nat) (zipData !! 1%nat)) eqn:Hpk;
          [by rewrite (extractZip_returns _ _ _ Hl Hx Hpk) in Hrun|].
        rewrite (extractZip_not_zip _ _ _ Hl Hx Hpk) in Hrun.
        injection Hrun as <- <-. by eexists.
      * rewrite (extractZip_wasm_throws _ _ _ Hl Hx) in Hrun.
        injection Hrun as <- <-. by eexists.
    + rewrite (extractZip_uninit _ _ Hl) in Hrun. injection Hrun as <- <-. by eexists.
  - intros buffer zipData w' Hl Hx Hrun.
    destruct (has_pk_signature (zipData !! 0%nat) (zipData !! 1%nat)) eqn:Hpk;
      [by rewrite (extractZip_returns _ _ _ Hl Hx Hpk) in Hrun|].
    rewrite (extractZip_not_zip _ _ _ Hl Hx Hpk) in Hrun. injection Hrun as <-.
    simpl. by rewrite <- !app_assoc.
  - intros buffer r w' Hrun.
    pose proof (extractZip_Ok_inv _ _ _ _ Hrun) as (Hl & _ & _ & zipData & Hx & Hpk & Hc).
    rewrite (extractZip_returns _ _ _ Hl Hx Hpk) in Hrun. cbv zeta in Hrun.
    injection Hrun as <- <-. rewrite Hc. simpl. by rewrite <- !app_assoc.
  - intros bytes e w' Hrun.
    destruct (wasm_loaded w) eqn:Hl.
    + destruct (parse_crx (contents w bytes)) as [info|we] eqn:Hp;
        [by rewrite (manualExtractZip_returns _ _ _ Hl Hp) in Hrun|].
      rewrite (manualExtractZip_wasm_throws _ _ _ Hl Hp) in Hrun.
      injection Hrun as <- <-. eexists. split; [done|]. simpl. by rewrite <- !app_assoc.
    + rewrite (manualExtractZip_uninit _ _ Hl) in Hrun.
      injection Hrun as <- <-. eexists. split; [done|]. simpl. by rewrite <- !app_assoc.
  - intros bytes r w' Hrun.
    pose proof (manualExtractZip_Ok_inv _ _ _ _ Hrun) as (Hl & _ & _ & info & Hp & _).
    rewrite (manualExtractZip_returns _ _ _ Hl Hp) in Hrun. injection Hrun as _ <-.
    exists info. split; [done|]. simpl. by rewrite <- !app_assoc.
Qed.

(** X3: whatever offset [parse_crx] reports (past the end, or negative, in
    which case [slice] counts from the end), the array [manualExtractZip]
    returns is a suffix of the input: it never holds a byte that is not at
    the end of the input buffer, and it is never longer than the input. *)
Theorem manualExtractZip_returns_a_suffix (bytes r : Uint8Array) (w w' : World) :
  manualExtractZip bytes w = (Ok r, w') →
  contents w' r `suffix_of` contents w bytes ∧
  (length (contents w' r) ≤ length (contents w bytes))%nat ∧
  ∃ info, parse_crx (contents w bytes) = Ok info ∧
    Z.of_nat (length (contents w' r))
    = (Z.of_nat (length (contents w bytes))
       - clamp_index (Z.of_nat (length (contents w bytes))) (Wasm.zip_offset info))%Z.
Proof.
  intros Hrun. apply manualExtractZip_Ok_inv in Hrun as (_ & _ & _ & info & Hp & ->).
  rewrite js_slice_drop.
  set (k := Z.to_nat (clamp_index _ _)).
  assert (Hk : (0 ≤ clamp_index (Z.of_nat (length (contents w bytes)))
                      (Wasm.zip_offset info)
                   ≤ Z.of_nat (length (contents w bytes)))%Z).
  { unfold clamp_index. destruct (Z.ltb_spec (Wasm.zip_offset info) 0); lia. }
  split; [|split].
  - exists (take k (contents w bytes)). by rewrite take_drop.
  - rewrite length_drop. lia.
  - exists info. split; [done|]. rewrite length_drop. unfold k. lia.
Qed.

(** X4: [parse] followed by [extractZip] on the same buffer, with no call
    of [initialize] in between or before.  Unless the module could not be
    fetched, [parse] leaves it loaded and the buffer as it was, whether the
    parse itself succeeded or not; so [extractZip] reaches the export with
    the same bytes, and its outcome is the one the export and the signature
    test give. *)
Theorem parse_then_extractZip (buffer : loc) (w w1 w2 : World)
    (o1 : result Thrown ParsedCrx) (o2 : result Thrown Uint8Array) :
  is_Some (heap w !! buffer) →
  parse buffer w = (o1, w1) → o1 ≠ Err fetch_error →
  extractZip buffer w1 = (o2, w2) →
  wasm_loaded w1 = true ∧
  contents w1 (U8 buffer) = contents w (U8 buffer) ∧
  match extract_zip_data (contents w (U8 buffer)) with
  | Ok zipData =>
      if has_pk_signature (zipData !! 0%nat) (zipData !! 1%nat)
      then ∃ r, o2 = Ok r ∧ contents w2 r = zipData
      else o2 = Err not_zip_error
  | Err e => o2 = Err (WasmThrown e)
  end.
Proof.
  intros Hbuf Hrun1 Hne Hrun2.
  pose proof (parse_world _ _ _ _ Hrun1) as (Hl & _ & Hsub & _).
  assert (Hi : can_init w = true).
  { destruct (can_init w) eqn:Hi; [done|].
    rewrite (parse_init_fails _ _ Hi) in Hrun1. by injection Hrun1 as <- _. }
  rewrite Hi in Hl.
  assert (Hc : contents w1 (U8 buffer) = contents w (U8 buffer))
    by (by apply contents_extend).
  split; [done|]. split; [done|]. rewrite <- Hc.
  destruct (extract_zip_data (contents w1 (U8 buffer))) as [zipData|e] eqn:Hx.
  - destruct (has_pk_signature (zipData !! 0%nat) (zipData !! 1%nat)) eqn:Hpk.
    + destruct o2 as [r|e].
      * apply extractZip_Ok_inv in Hrun2 as (_ & _ & _ & zipData' & Hx' & _ & Hc').
        exists r. split; [done|]. congruence.
      * rewrite (extractZip_returns _ _ _ Hl Hx Hpk) in Hrun2. discriminate.
    + rewrite (extractZip_not_zip _ _ _ Hl Hx Hpk) in Hrun2. by injection Hrun2 as <- _.
  - rewrite (extractZip_wasm_throws _ _ _ Hl Hx) in Hrun2. by injection Hrun2 as <- _.
Qed.


Lemma js_slice_first (bs : bytes) (n : nat) :
  js_slice bs 0 (Some (Z.of_nat n)) = take n bs.
Proof.
  unfold js_slice, clamp_index.
  change (0 <? 0)%Z with false. cbv iota.
  destruct (Z.ltb_spec (Z.of_nat n) 0) as [?|_]; [lia|].
  rewrite (Z.min_l 0) by lia. rewrite Z.sub_0_r. cbn [Z.to_nat drop].
  destruct (Nat.le_gt_cases n (length bs)) as [Hle|Hgt].
  - rewrite Z.min_l by lia. by rewrite Nat2Z.id.
  - rewrite Z.min_r by lia. rewrite Nat2Z.id.
    rewrite (take_ge bs n) by lia. apply take_ge. lia.
Qed.

Lemma to_hex2_inj (b b' : byte) : to_hex2 b = to_hex2 b' → b = b'.
Proof.
  set (all := (λ n, default x00 (Byte.of_N (N.of_nat n))) <$> seq 0 256).
  set (back := λ s, List.find (λ c, String.eqb (to_hex2 c) s) all).
  assert (Hback : ∀ c, back (to_hex2 c) = Some c)
    by (intros c; destruct c; vm_compute; reflexivity).
  intros Heq. apply (f_equal back) in Heq. rewrite !Hback in Heq. by injection Heq.
Qed.


(** ** The page script: one equation per function *)

Lemma processCrxFile_run (buffer : loc) (name : string) (p : Page) :
  processCrxFile buffer name p =
    let p1 :=
      set_filename name
        (set_crxBuffer (Some buffer)
           (set_resultContainer_hidden true
              (set_errorContainer_hidden true (set_errorContainer_text "" p)))) in
    match parse buffer (world p) with
    | (Ok r, w') =>
        (Ok (),
         set_resultContainer_hidden false
           (set_crxInfo_text
              (json_stringify
                 (Dom.mkInfoSummary name (version r)
                    (length (contents w' (publicKey r)))
                    (length (contents w' (signature r))) (zipOffset r)))
              (set_world w' p1)))
    | (Err e, w') =>
        (Ok (),
         set_errorContainer_hidden false
           (set_errorContainer_text ("Failed to parse CRX file: " +:+ message_of e)
              (set_world (emit (EvConsoleError "Error parsing CRX:" (Some e)) w') p1)))
    end.
Proof.
  unfold processCrxFile, ui_try_catch, clearError, showError, ui_bind, modify, call,
    u8_length, console_error, log, bind, u8_read, ret.
  cbn [world set_world set_filename set_crxBuffer set_resultContainer_hidden
         set_errorContainer_hidden set_errorContainer_text].
  destruct (parse buffer (world p)) as [[r|e] w']; reflexivity.
Qed.

Lemma extractZipContent_run (p : Page) :
  extractZipContent p =
    match crxBuffer p with
    | None => (Ok (), p)
    | Some buffer =>
        match extractZip buffer (world p) with
        | (Ok zipData, w') =>
            (Ok (),
             button_restored
               (set_downloads
                  (downloads p ++
                     [Dom.mkDownload (Dom.js_replace ".crx" ".zip" (filename p))
                        "application/zip" (contents w' zipData)])
                  (set_world w' (button_busy p))))
        | (Err e, w') =>
            (Ok (),
             button_restored
               (set_errorContainer_hidden false
                  (set_errorContainer_text
                     ("Failed to extract ZIP content: " +:+ message_of e)
                     (set_world (emit (EvConsoleError "Error extracting ZIP:" (Some e)) w')
                        (button_busy p)))))
        end
    end.
Proof.
  unfold extractZipContent, ui_finally, ui_try_catch, showError, ui_bind, ui_get, ui_ret,
    modify, call, console_error, log, u8_read.
  destruct (crxBuffer p) as [buffer|]; [|reflexivity].
  cbn [world set_world set_downloadZip_disabled set_downloadZip_text].
  destruct (extractZip buffer (world p)) as [[zipData|e] w']; reflexivity.
Qed.

Lemma init_run (p : Page) :
  init p =
    if can_init (world p)
    then
      (Ok (),
       set_initProgress_hidden true
         (set_timers (timers p ++ [(2000%N, Dom.StatusReady)])
            (set_initStatus_color "green"
               (set_initStatus_text "✓ WebAssembly module loaded successfully!"
                  (set_world (after_init (world p))
                     (set_initProgress_hidden false p))))))
    else
      (Ok (),
       set_initProgress_hidden true
         (set_errorContainer_hidden false
            (set_errorContainer_text
               "WebAssembly initialization failed. Please check console for details."
               (set_initStatus_color "red"
                  (set_initStatus_text
                     ("✗ Failed to load WebAssembly module: " +:+ fetch_message)
                     (set_world
                        (emit (EvConsoleError "WebAssembly initialization failed:"
                                 (Some fetch_error))
                           (emit EvInitWasm (world p)))
                        (set_initProgress_hidden false p))))))).
Proof.
  unfold init, ui_finally, ui_try_catch, showError, ui_bind, modify, call,
    console_error, log.
  cbn [world set_world set_initProgress_hidden].
  destruct (can_init (world p)) eqn:Hi.
  - rewrite (initialize_ok _ Hi). reflexivity.
  - rewrite (initialize_fails _ Hi). reflexivity.
Qed.

Lemma handleFileSelect_run (f : Dom.File) (p : Page) :
  handleFileSelect (Some f) p =
    if Dom.js_endsWith (Dom.file_name f) ".crx"
    then
      match Dom.file_read f with
      | Ok data =>
          processCrxFile (fresh (dom (heap (world p)))) (Dom.file_name f)
            (set_world (set_heap (alloc_heap (heap (world p)) data) (world p)) p)
      | Err reader_error =>
          (Ok (),
           set_errorContainer_hidden false
             (set_errorContainer_text ("Error reading file: " +:+ reader_error) p))
      end
    else
      (Ok (),
       set_errorContainer_hidden false
         (set_errorContainer_text "Please select a valid .crx file." p)).
Proof.
  unfold handleFileSelect, showError, ui_bind, modify, call, alloc.
  destruct (Dom.js_endsWith (Dom.file_name f) ".crx"); [|reflexivity].
  destruct (Dom.file_read f) as [data|reader_error]; reflexivity.
Qed.

(** ** The page script: what holds between events *)

(** Reads a field of a page through the setters applied to it. *)
Ltac page_simpl :=
  unfold button_restored, button_busy in *;
  cbn [world crxBuffer filename initStatus_text initStatus_color initProgress_hidden
       dropZone_highlight errorContainer_text errorContainer_hidden
       resultContainer_hidden crxInfo_text downloadZip_disabled downloadZip_text
       timers file_dialogs downloads
       set_world set_crxBuffer set_filename set_initStatus_text set_initStatus_color
       set_initProgress_hidden set_dropZone_highlight set_errorContainer_text
       set_errorContainer_hidden set_resultContainer_hidden set_crxInfo_text
       set_downloadZip_disabled set_downloadZip_text set_timers set_file_dialogs
       set_downloads fst snd] in *.

Lemma page_ok_world (p : Page) (w' : World) :
  page_ok p → heap (world p) ⊆ heap w' →
  (wasm_loaded (world p) = true → wasm_loaded w' = true) →
  page_ok (set_world w' p).
Proof.
  intros (Hd & Ht & Hp & Hb & Hv & Hdl) Hsub Hl.
  unfold page_ok. cbn [set_world downloadZip_disabled downloadZip_text initProgress_hidden
    crxBuffer filename world resultContainer_hidden downloads].
  repeat (split; [done|]). split; [|split; [|done]].
  - intros b Hbuf. destruct (Hb b Hbuf) as [[bs Hbs] He].
    split; [|done]. exists bs. by apply (lookup_weaken _ _ _ _ Hbs Hsub).
  - intros Hvis. destruct (Hv Hvis) as (Hw & b & info & Hbuf & Hparse & Htext).
    split; [by apply Hl|]. exists b, info.
    cbn [set_world crxBuffer world crxInfo_text filename].
    repeat split; [done| |done].
    rewrite (contents_extend (world p) w' (U8 b)); [done|done|]. by apply Hb.
Qed.

Lemma page_ok_processCrxFile (buffer : loc) (name : string) (p : Page) :
  page_ok p → is_Some (heap (world p) !! buffer) →
  Dom.js_endsWith name ".crx" = true →
  page_ok (snd (processCrxFile buffer name p)).
Proof.
  intros (Hd & Ht & Hp & Hb & Hv & Hdl) Hbuf Hname.
  rewrite processCrxFile_run. cbv zeta.
  destruct (parse buffer (world p)) as [[r|e] w'] eqn:Hrun;
    pose proof (parse_world _ _ _ _ Hrun) as (Hl & _ & Hsub & _);
    unfold page_ok; cbn; repeat (split; [done|]).
  - apply parse_Ok_inv in Hrun as (Hi & info & Hparse & Hver & Hz & Hk & Hs & _).
    split; [|split; [|done]].
    + intros b [= <-]. split; [|done]. destruct Hbuf as [bs Hbs].
      exists bs. by apply (lookup_weaken _ _ _ _ Hbs Hsub).
    + intros _. split; [by rewrite Hl|]. exists buffer, info. cbn.
      split; [done|]. split.
      * by rewrite (contents_extend (world p) w' (U8 buffer)).
      * unfold summary_of, contents. by rewrite Hk, Hs, Hver, Hz.
  - split; [|split; [|done]].
    + intros b [= <-]. split; [|done]. destruct Hbuf as [bs Hbs].
      exists bs. by apply (lookup_weaken _ _ _ _ Hbs Hsub).
    + discriminate.
Qed.

Lemma page_ok_handleFileSelect (file : option Dom.File) (p : Page) :
  page_ok p → page_ok (snd (handleFileSelect file p)).
Proof.
  intros Hok. destruct file as [f|]; [|done].
  rewrite handleFileSelect_run.
  destruct (Dom.js_endsWith (Dom.file_name f) ".crx") eqn:Hname; [|done].
  destruct (Dom.file_read f) as [data|reader_error]; [|done].
  apply page_ok_processCrxFile; [| |done].
  - apply page_ok_world; [done| apply alloc_keeps |done].
  - cbn. unfold alloc_heap. rewrite lookup_insert_eq. by eexists.
Qed.

Lemma page_ok_extractZipContent (p : Page) :
  page_ok p → page_ok (snd (extractZipContent p)).
Proof.
  intros Hok. rewrite extractZipContent_run.
  destruct (crxBuffer p) as [buffer|] eqn:Hbuf; [|done].
  destruct (extractZip buffer (world p)) as [[zipData|e] w'] eqn:Hrun;
    pose proof (extractZip_world _ _ _ _ Hrun) as (Hl & _ & Hsub & _).
  - pose proof (page_ok_world p w' Hok Hsub ltac:(by rewrite Hl))
      as (_ & _ & Hp & Hb & Hv & Hdl).
    unfold page_ok, shows_parse_of_crxBuffer in *. page_simpl.
    repeat (split; [done|]).
    apply Forall_app. split; [done|]. apply Forall_singleton.
    apply extractZip_Ok_inv in Hrun as (_ & _ & _ & zip & Hx & Hpk & ->).
    split; [done|]. split; [|split].
    + apply has_pk_signature_true in Hpk. by apply bool_decide_eq_true.
    + by eexists.
    + exists (filename p). split; [|done]. by apply (Hb buffer).
  - set (w'' := emit (EvConsoleError "Error extracting ZIP:" (Some e)) w').
    pose proof (page_ok_world p w'' Hok Hsub ltac:(by rewrite <- Hl))
      as (_ & _ & Hp & Hb & Hv & Hdl).
    unfold page_ok, shows_parse_of_crxBuffer in *. page_simpl.
    done.
Qed.

Lemma page_ok_dispatch (ev : Dom.PageEvent) (p : Page) :
  page_ok p → page_ok (snd (dispatch ev p)).
Proof.
  intros Hok. destruct ev as [|files| | |files| |]; cbn [dispatch].
  - done.
  - destruct files as [|file ?]; [done|]. by apply page_ok_handleFileSelect.
  - done.
  - done.
  - unfold ui_bind, modify. destruct files as [|file ?]; [done|].
    by apply page_ok_handleFileSelect.
  - by apply page_ok_extractZipContent.
  - destruct (timers p) as [|[delay []] rest]; done.
Qed.

Lemma page_ok_loaded (w : World) : page_ok (loaded_page w).
Proof.
  unfold loaded_page. rewrite init_run.
  destruct (can_init (world (initial_page w))); unfold page_ok; cbn;
    repeat split; try done; by constructor.
Qed.

Lemma after_events_snoc (evs : list Dom.PageEvent) (ev : Dom.PageEvent) (p : Page) :
  after_events (evs ++ [ev]) p = snd (dispatch ev (after_events evs p)).
Proof. unfold after_events. by rewrite foldl_snoc. Qed.

Lemma page_ok_after_events (evs : list Dom.PageEvent) (p : Page) :
  page_ok p → page_ok (after_events evs p).
Proof.
  intros Hok. induction evs as [|ev evs IH] using rev_ind; [done|].
  rewrite after_events_snoc. by apply page_ok_dispatch.
Qed.

(** ** The page script: properties *)

Lemma processCrxFile_ends (buffer : loc) (name : string) (p : Page) :
  fst (processCrxFile buffer name p) = Ok ().
Proof.
  rewrite processCrxFile_run. cbv zeta.
  by destruct (parse buffer (world p)) as [[r|e] w'].
Qed.

Lemma extractZipContent_ends (p : Page) : fst (extractZipContent p) = Ok ().
Proof.
  rewrite extractZipContent_run. destruct (crxBuffer p) as [buffer|]; [|done].
  by destruct (extractZip buffer (world p)) as [[r|e] w'].
Qed.

Lemma handleFileSelect_ends (file : option Dom.File) (p : Page) :
  fst (handleFileSelect file p) = Ok ().
Proof.
  destruct file as [f|]; [|done]. rewrite handleFileSelect_run.
  destruct (Dom.js_endsWith (Dom.file_name f) ".crx"); [|done].
  destruct (Dom.file_read f); [|done]. apply processCrxFile_ends.
Qed.

(** X6.  No function of the page lets a failure escape: [init],
    [processCrxFile], [extractZipContent], [handleFileSelect] and every
    event listener end normally, whatever the state of the page, the file
    and the outcome of the calls into [CrxParser]. *)
Theorem the_page_catches_every_failure (p : Page) :
  fst (init p) = Ok () ∧
  (∀ buffer name, fst (processCrxFile buffer name p) = Ok ()) ∧
  fst (extractZipContent p) = Ok () ∧
  (∀ file, fst (handleFileSelect file p) = Ok ()) ∧
  (∀ ev, fst (dispatch ev p) = Ok ()).
Proof.
  split; [|split; [|split; [|split]]].
  - rewrite init_run. by destruct (can_init (world p)).
  - intros. apply processCrxFile_ends.
  - apply extractZipContent_ends.
  - intros. apply handleFileSelect_ends.
  - intros [|files| | |files| |]; cbn [dispatch]; try done.
    + destruct files; [done|]. apply handleFileSelect_ends.
    + unfold ui_bind, modify. destruct files; [done|]. apply handleFileSelect_ends.
    + apply extractZipContent_ends.
    + by destruct (timers p) as [|[delay []] rest].
Qed.


(** X8.  Every download the page ever starts is of type [application/zip],
    holds bytes that [extract_zip_data] returned and that begin with the PK
    signature, and is named by replacing [.crx] in a name that ends in
    [.crx]. *)
Theorem downloads_are_extracted_zip_files (w : World) (evs : list Dom.PageEvent) :
  Forall download_ok (downloads (after_events evs (loaded_page w))).
Proof. by apply (page_ok_after_events evs _ (page_ok_loaded w)). Qed.

Lemma extractZipContent_outcome (p : Page) (buffer : loc) :
  crxBuffer p = Some buffer → wasm_loaded (world p) = true →
  let p' := snd (extractZipContent p) in
  match extract_zip_data (contents (world p) (U8 buffer)) with
  | Ok zipData =>
      if has_pk_signature (zipData !! 0%nat) (zipData !! 1%nat)
      then downloads p' =
             downloads p ++
               [Dom.mkDownload (Dom.js_replace ".crx" ".zip" (filename p))
                               "application/zip" zipData] ∧
           errorContainer_text p' = errorContainer_text p ∧
           errorContainer_hidden p' = errorContainer_hidden p
      else downloads p' = downloads p ∧
           errorContainer_text p' = "Failed to extract ZIP content: " +:+ NOT_ZIP_MESSAGE ∧
           errorContainer_hidden p' = false
  | Err e =>
      downloads p' = downloads p ∧
      errorContainer_text p' = "Failed to extract ZIP content: " +:+ wasm_message e ∧
      errorContainer_hidden p' = false
  end.
Proof.
  intros Hbuf Hl p'. subst p'. rewrite extractZipContent_run, Hbuf.
  destruct (extract_zip_data (contents (world p) (U8 buffer))) as [zipData|e] eqn:Hx.
  - destruct (has_pk_signature (zipData !! 0%nat) (zipData !! 1%nat)) eqn:Hpk.
    + destruct (extractZip buffer (world p)) as [[r|e] w'] eqn:Hrun.
      * apply extractZip_Ok_inv in Hrun as (_ & _ & _ & zip & Hx' & _ & Hc).
        page_simpl. rewrite Hc. by replace zip with zipData by congruence.
      * by rewrite (extractZip_returns _ _ _ Hl Hx Hpk) in Hrun.
    + by rewrite (extractZip_not_zip _ _ _ Hl Hx Hpk).
  - by rewrite (extractZip_wasm_throws _ _ _ Hl Hx).
Qed.


Lemma processCrxFile_outcome (buffer : loc) (name : string) (p : Page) :
  let p' := snd (processCrxFile buffer name p) in
  filename p' = name ∧ crxBuffer p' = Some buffer ∧ downloads p' = downloads p ∧
  dropZone_highlight p' = dropZone_highlight p ∧
  heap (world p) ⊆ heap (world p') ∧
  if can_init (world p)
  then match parse_crx (contents (world p) (U8 buffer)) with
       | Ok info =>
           wasm_loaded (world p') = true ∧
           resultContainer_hidden p' = false ∧
           crxInfo_text p' = json_stringify (summary_of name info) ∧
           errorContainer_hidden p' = true ∧ errorContainer_text p' = ""
       | Err e =>
           resultContainer_hidden p' = true ∧ errorContainer_hidden p' = false ∧
           errorContainer_text p' = "Failed to parse CRX file: " +:+ wasm_message e
       end
  else resultContainer_hidden p' = true ∧ errorContainer_hidden p' = false ∧
       errorContainer_text p' = "Failed to parse CRX file: " +:+ fetch_message.
Proof.
  intros p'. subst p'. rewrite processCrxFile_run. cbv zeta.
  destruct (parse buffer (world p)) as [[r|e] w'] eqn:Hrun;
    pose proof (parse_world _ _ _ _ Hrun) as (Hl & _ & Hsub & _); page_simpl;
    repeat (split; [done|]).
  - apply parse_Ok_inv in Hrun as (Hi & info & Hparse & Hver & Hz & Hk & Hs & _).
    rewrite Hi, Hparse. rewrite Hi in Hl. repeat (split; [done|]).
    split; [|done]. unfold summary_of, contents. by rewrite Hk, Hs, Hver, Hz.
  - destruct (can_init (world p)) eqn:Hi.
    + destruct (parse_crx (contents (world p) (U8 buffer))) as [info|we] eqn:Hparse.
      * by rewrite (parse_returns _ _ _ Hi Hparse) in Hrun.
      * rewrite (parse_wasm_throws _ _ _ Hi Hparse) in Hrun. by simplify_eq.
    + rewrite (parse_init_fails _ _ Hi) in Hrun. by simplify_eq.
Qed.

Lemma selected_file_inv (ev : Dom.PageEvent) (f : Dom.File) :
  selected_file ev = Some f →
  ∃ others, ev = Dom.FileInputChange (f :: others) ∨ ev = Dom.Drop (f :: others).
Proof.
  destruct ev as [|[|f' others]| | |[|f' others]| |]; cbn; try done;
    intros [= ->]; exists others; auto.
Qed.

(** X10.  Selecting a readable file whose name ends in [.crx], by the file
    input or by a drop: the page remembers the name and a new buffer with
    the bytes of the file, whatever comes of the parse.  When the module can
    be initialised and [parse_crx] accepts the bytes, the result panel is
    shown with the summary of that parse and the error box is cleared;
    otherwise the result panel is hidden and the error box shows the message
    of the failure.  No download is started. *)
Theorem selecting_a_crx_file
    (ev : Dom.PageEvent) (f : Dom.File) (data : bytes) (p : Page) :
  selected_file ev = Some f →
  Dom.js_endsWith (Dom.file_name f) ".crx" = true →
  Dom.file_read f = Ok data →
  let p' := snd (dispatch ev p) in
  filename p' = Dom.file_name f ∧
  (∃ b, crxBuffer p' = Some b ∧ heap (world p) !! b = None ∧
        contents (world p') (U8 b) = data) ∧
  downloads p' = downloads p ∧
  if can_init (world p)
  then match parse_crx data with
       | Ok info =>
           wasm_loaded (world p') = true ∧
           resultContainer_hidden p' = false ∧
           crxInfo_text p' = json_stringify (summary_of (Dom.file_name f) info) ∧
           errorContainer_hidden p' = true ∧ errorContainer_text p' = ""
       | Err e =>
           resultContainer_hidden p' = true ∧ errorContainer_hidden p' = false ∧
           errorContainer_text p' = "Failed to parse CRX file: " +:+ wasm_message e
       end
  else resultContainer_hidden p' = true ∧ errorContainer_hidden p' = false ∧
       errorContainer_text p' = "Failed to parse CRX file: " +:+ fetch_message.
Proof.
  intros Hsel Hname Hread p'.
  set (b := fresh (dom (heap (world p)))).
  set (w0 := set_heap (alloc_heap (heap (world p)) data) (world p)).
  assert (Hrun : ∃ q, world q = world p ∧ downloads q = downloads p ∧
            p' = snd (processCrxFile b (Dom.file_name f) (set_world w0 q))).
  { apply selected_file_inv in Hsel as [others [-> | ->]]; subst p'.
    - exists p. cbn [dispatch]. by rewrite handleFileSelect_run, Hname, Hread.
    - exists (set_dropZone_highlight false p). cbn [dispatch]. unfold ui_bind, modify.
      by rewrite handleFileSelect_run, Hname, Hread. }
  destruct Hrun as (q & Hw & Hd & ->).
  pose proof (processCrxFile_outcome b (Dom.file_name f) (set_world w0 q))
    as (Hf & Hb & Hdl & _ & Hsub & Hout).
  cbn [world set_world downloads] in Hsub, Hout, Hdl.
  assert (Hc : contents w0 (U8 b) = data) by apply contents_alloc_new.
  split; [done|]. split; [|split; [by rewrite Hdl|]].
  - exists b. split; [done|]. split; [apply fresh_loc_unused|].
    rewrite (contents_extend w0 _ (U8 b)); [done|done|].
    cbn. unfold alloc_heap. rewrite lookup_insert_eq. by eexists.
  - by rewrite Hc in Hout.
Qed.

(** X11.  Which events reach [CrxParser].  The listener of an event that
    does not (a click on the drop zone, a drag, a timer, a selection without
    a file or of a file that is rejected, a click on the extract button with
    no buffer remembered) leaves the world, the remembered buffer and name,
    the result panel and the downloads as they were, and for a rejected file
    shows why.  The listener of an event that does makes a call: the trace
    grows, by [initWasm] or by a call of [extract_zip_data]. *)
Theorem events_that_reach_CrxParser (ev : Dom.PageEvent) (p : Page) :
  let p' := snd (dispatch ev p) in
  (calls_CrxParser ev p = false →
     world p' = world p ∧ crxBuffer p' = crxBuffer p ∧ filename p' = filename p ∧
     resultContainer_hidden p' = resultContainer_hidden p ∧
     crxInfo_text p' = crxInfo_text p ∧ downloads p' = downloads p ∧
     ∀ f, selected_file ev = Some f →
          errorContainer_hidden p' = false ∧
          errorContainer_text p' = rejection_message f) ∧
  (calls_CrxParser ev p = true →
     ∃ first rest,
       trace (world p') = trace (world p) ++ first :: rest ∧
       (first = EvInitWasm ∨ first = EvWasmCall "extract_zip_data")).
Proof.
  intros p'. subst p'. split.
  - intros Hno.
    destruct ev as [|[|f others]| | |[|f others]| |]; cbn [dispatch];
      cbn [calls_CrxParser selected_file head from_option] in Hno;
      try (by repeat split).
    + rewrite handleFileSelect_run. unfold is_processed, rejection_message in *.
      destruct (Dom.js_endsWith (Dom.file_name f) ".crx") eqn:Hname;
        [destruct (Dom.file_read f) eqn:Hread; [done|]|];
        split_and!; try done; intros ? [= <-];
        by rewrite ?Hname, ?Hread.
    + unfold ui_bind, modify. rewrite handleFileSelect_run.
      unfold is_processed, rejection_message in *.
      destruct (Dom.js_endsWith (Dom.file_name f) ".crx") eqn:Hname;
        [destruct (Dom.file_read f) eqn:Hread; [done|]|];
        split_and!; try done; intros ? [= <-];
        by rewrite ?Hname, ?Hread.
    + rewrite extractZipContent_run.
      destruct (crxBuffer p) as [b|] eqn:Hbuf; [|done].
      apply bool_decide_eq_false in Hno. destruct Hno. by eexists.
    + by destruct (timers p) as [|[delay []] rest].
  - intros Hyes.
    assert (Hfile : ∀ f q, world q = world p → is_processed f = true →
              ∃ first rest,
                trace (world (snd (handleFileSelect (Some f) q))) =
                  trace (world p) ++ first :: rest ∧
                (first = EvInitWasm ∨ first = EvWasmCall "extract_zip_data")).
    { intros f q Hq Hf. unfold is_processed in Hf.
      apply andb_true_iff in Hf as [Hname Hread].
      rewrite handleFileSelect_run, Hname.
      destruct (Dom.file_read f) as [data|]; [|done].
      rewrite processCrxFile_run. cbv zeta. rewrite Hq.
      destruct (parse _ _) as [[r|e] w'] eqn:Hrun;
        apply parse_world in Hrun as (_ & _ & _ & [[_ Htr] | [_ Htr]]);
        page_simpl; cbn [trace emit set_heap] in *; rewrite Htr;
        try rewrite <- app_assoc; eexists _, _; eauto. }
    destruct ev as [|[|f others]| | |[|f others]| |]; cbn [dispatch];
      cbn [calls_CrxParser selected_file head from_option] in Hyes; try done.
    + by apply Hfile.
    + unfold ui_bind, modify. by apply Hfile.
    + apply bool_decide_eq_true in Hyes as [b Hbuf].
      rewrite extractZipContent_run, Hbuf.
      destruct (extractZip b (world p)) as [[r|e] w'] eqn:Hrun;
        apply extractZip_world in Hrun as (_ & _ & _ & rest & Htr & _);
        page_simpl; cbn [trace emit] in *; rewrite Htr;
        try rewrite <- app_assoc; eexists _, _; eauto.
Qed.

Lemma dispatch_keeps_status (ev : Dom.PageEvent) (p : Page) :
  ev ≠ Dom.TimerFires →
  let p' := snd (dispatch ev p) in
  timers p' = timers p ∧ initStatus_text p' = initStatus_text p ∧
  initStatus_color p' = initStatus_color p.
Proof.
  intros Hev p'. subst p'.
  assert (Hfile : ∀ file q, timers q = timers p → initStatus_text q = initStatus_text p →
            initStatus_color q = initStatus_color p →
            let q' := snd (handleFileSelect file q) in
            timers q' = timers p ∧ initStatus_text q' = initStatus_text p ∧
            initStatus_color q' = initStatus_color p).
  { intros [f|] q ???; [|done]. rewrite handleFileSelect_run.
    destruct (Dom.js_endsWith (Dom.file_name f) ".crx"); [|done].
    destruct (Dom.file_read f); [|done].
    rewrite processCrxFile_run. cbv zeta.
    by destruct (parse _ _) as [[r|e] w']. }
  destruct ev as [|[|f others]| | |[|f others]| |]; cbn [dispatch]; try done.
  - by apply Hfile.
  - unfold ui_bind, modify. by apply Hfile.
  - rewrite extractZipContent_run. destruct (crxBuffer p) as [b|]; [|done].
    by destruct (extractZip b (world p)) as [[r|e] w'].
Qed.

Lemma timer_fires_snoc (evs : list Dom.PageEvent) (ev : Dom.PageEvent) :
  timer_fires (evs ++ [ev]) =
    timer_fires evs || match ev with Dom.TimerFires => true | _ => false end.
Proof. unfold timer_fires. rewrite existsb_app. cbn. by rewrite orb_false_r. Qed.

Lemma status_when_loaded (w : World) (evs : list Dom.PageEvent) :
  can_init w = true →
  let p := after_events evs (loaded_page w) in
  initStatus_color p = "green" ∧
  timers p = (if timer_fires evs then [] else [(2000%N, Dom.StatusReady)]) ∧
  initStatus_text p = (if timer_fires evs then STATUS_READY else STATUS_LOADED).
Proof.
  intros Hi. induction evs as [|ev evs IH] using rev_ind.
  - cbn [after_events foldl timer_fires existsb]. unfold loaded_page.
    rewrite init_run. cbn [world initial_page]. by rewrite Hi.
  - rewrite after_events_snoc, timer_fires_snoc. cbv zeta in *.
    destruct IH as (Hc & Ht & Hs).
    assert (ev = Dom.TimerFires ∨ ev ≠ Dom.TimerFires) as [->|Hev]
      by (destruct ev; by (left + right)).
    + rewrite orb_true_r. cbn [dispatch]. rewrite Ht.
      by destruct (timer_fires evs).
    + destruct (dispatch_keeps_status ev (after_events evs (loaded_page w)) Hev)
        as (-> & -> & ->).
      replace (match ev with Dom.TimerFires => true | _ => false end) with false
        by by destruct ev.
      by rewrite orb_false_r.
Qed.

Lemma status_when_not_loaded (w : World) (evs : list Dom.PageEvent) :
  can_init w = false →
  let p := after_events evs (loaded_page w) in
  can_init (world p) = false ∧ timers p = [] ∧
  initStatus_color p = "red" ∧ initStatus_text p = STATUS_FAILED ∧
  resultContainer_hidden p = true ∧ downloads p = [].
Proof.
  intros Hi. induction evs as [|ev evs IH] using rev_ind.
  - cbn [after_events foldl]. unfold loaded_page.
    rewrite init_run. cbn [world initial_page]. by rewrite Hi.
  - rewrite after_events_snoc. cbv zeta in *.
    set (p := after_events evs (loaded_page w)) in *.
    destruct IH as (Hc & Ht & Hcol & Hs & Hr & Hd).
    assert (Hl : wasm_loaded (world p) = false).
    { unfold can_init in Hc. by apply orb_false_elim in Hc as [? _]. }
    assert (Hfile : ∀ file q, world q = world p → timers q = [] →
              initStatus_color q = "red" → initStatus_text q = STATUS_FAILED →
              resultContainer_hidden q = true → downloads q = [] →
              let q' := snd (handleFileSelect file q) in
              can_init (world q') = false ∧ timers q' = [] ∧
              initStatus_color q' = "red" ∧ initStatus_text q' = STATUS_FAILED ∧
              resultContainer_hidden q' = true ∧ downloads q' = []).
    { intros [f|] q Hq ?????; cbv zeta;
        [|cbn [handleFileSelect ui_ret snd]; by rewrite Hq].
      rewrite handleFileSelect_run.
      destruct (Dom.js_endsWith (Dom.file_name f) ".crx");
        [|page_simpl; by rewrite Hq].
      destruct (Dom.file_read f) as [data|]; [|page_simpl; by rewrite Hq].
      rewrite processCrxFile_run. cbv zeta. page_simpl.
      rewrite parse_init_fails; [page_simpl; by rewrite Hq|]. by rewrite Hq. }
    assert (ev = Dom.TimerFires ∨ ev ≠ Dom.TimerFires) as [->|Hev]
      by (destruct ev; by (left + right)).
    { cbn [dispatch]. by rewrite Ht. }
    destruct ev as [|[|f others]| | |[|f others]| |]; cbn [dispatch]; try done.
    + by apply Hfile.
    + unfold ui_bind, modify. by apply Hfile.
    + rewrite extractZipContent_run. destruct (crxBuffer p) as [b|]; [|done].
      by rewrite (extractZip_uninit _ _ Hl).
Qed.


End Boundary.

Arguments WasmThrown {WasmErr} e.
Arguments JsError {WasmErr} name message.
Arguments EvInitWasm {WasmErr}.
Arguments EvWasmCall {WasmErr} export.
Arguments EvConsoleLog {WasmErr} args.
Arguments EvConsoleError {WasmErr} text arg.
Arguments heap {WasmErr} w.
Arguments wasm_loaded {WasmErr} w.
Arguments wasm_fetchable {WasmErr} w.
Arguments initialized {WasmErr} w.
Arguments initPromise {WasmErr} w.
Arguments trace {WasmErr} w.
Arguments contents {WasmErr} w a.
Arguments store {WasmErr} a i b w.
Arguments can_init {WasmErr} w.
Arguments snapshot {WasmErr} w r.
Arguments observe {WasmErr} run.
Arguments parse {WasmErr} parse_crx uninit_message fetch_message buffer _.
Arguments extractZip {WasmErr} extract_zip_data uninit_message buffer _.
Arguments manualExtractZip {WasmErr} parse_crx wasm_message uninit_message bytes _.
Arguments not_zip_error {WasmErr}.
Arguments uninit_error {WasmErr} uninit_message.
Arguments fetch_error {WasmErr} fetch_message.
Arguments manual_failure {WasmErr} wasm_message error.
Arguments world {WasmErr} p.
Arguments crxBuffer {WasmErr} p.
Arguments filename {WasmErr} p.
Arguments initStatus_text {WasmErr} p.
Arguments initStatus_color {WasmErr} p.
Arguments initProgress_hidden {WasmErr} p.
Arguments dropZone_highlight {WasmErr} p.
Arguments errorContainer_text {WasmErr} p.
Arguments errorContainer_hidden {WasmErr} p.
Arguments resultContainer_hidden {WasmErr} p.
Arguments crxInfo_text {WasmErr} p.
Arguments downloadZip_disabled {WasmErr} p.
Arguments downloadZip_text {WasmErr} p.
Arguments timers {WasmErr} p.
Arguments file_dialogs {WasmErr} p.
Arguments downloads {WasmErr} p.
Arguments calls_CrxParser {WasmErr} ev p.
End Js.

(** * Facts about the modelled core *)

Lemma result_bind_Ok {E A B} (m : result E A) (k : A → result E B) (b : B) :
  m ≫= k = Ok b → ∃ a, m = Ok a ∧ k a = Ok b.
Proof. destruct m as [a|e]; simpl; [eauto | discriminate]. Qed.

Lemma result_bind_Err {E A B} (m : result E A) (k : A → result E B) (e : E) :
  m ≫= k = Err e → m = Err e ∨ ∃ a, m = Ok a ∧ k a = Err e.
Proof. destruct m as [a|e']; simpl; [eauto | intros [= ->]; auto]. Qed.

Module CoreFacts.
Import Core.

Lemma slice_length (buf : bytes) (pos n : N) :
  (pos + n ≤ N.of_nat (length buf))%N →
  length (slice buf pos n) = N.to_nat n.
Proof.
  intros Hle. unfold slice. rewrite length_take, length_drop. lia.
Qed.

Lemma read_bytes_Ok (buf : bytes) (pos n : N) (bs : bytes) :
  read_bytes buf pos n = Ok bs ↔
  (pos + n ≤ N.of_nat (length buf))%N ∧ bs = slice buf pos n.
Proof.
  unfold read_bytes. case_decide; split.
  - intros [= <-]. done.
  - intros [_ ->]. done.
  - discriminate.
  - intros [? _]. lia.
Qed.

Lemma read_bytes_Err (buf : bytes) (pos n : N) (e : ParseError) :
  read_bytes buf pos n = Err e ↔
  (N.of_nat (length buf) < pos + n)%N ∧ e = Truncated.
Proof.
  unfold read_bytes. case_decide; split.
  - discriminate.
  - intros [? _]. lia.
  - intros [= <-]. split; [lia | done].
  - intros [_ ->]. done.
Qed.

Lemma read_u32_Ok (buf : bytes) (pos v : N) :
  read_u32 buf pos = Ok v ↔
  (pos + 4 ≤ N.of_nat (length buf))%N ∧ v = le_value (slice buf pos 4).
Proof.
  unfold read_u32. split.
  - intros H. apply result_bind_Ok in H as (bs & Hbs & [= <-]).
    apply read_bytes_Ok in Hbs as [? ->]. done.
  - intros [Hle ->].
    assert (read_bytes buf pos 4 = Ok (slice buf pos 4)) as ->
      by (by apply read_bytes_Ok).
    done.
Qed.

Lemma read_u32_Err (buf : bytes) (pos : N) (e : ParseError) :
  read_u32 buf pos = Err e ↔
  (N.of_nat (length buf) < pos + 4)%N ∧ e = Truncated.
Proof.
  unfold read_u32. split.
  - intros H. apply result_bind_Err in H as [Hb | (bs & _ & [=])].
    by apply read_bytes_Err in Hb.
  - intros [Hlt ->].
    assert (read_bytes buf pos 4 = Err Truncated) as ->
      by (by apply read_bytes_Err).
    done.
Qed.

(** A varint takes at least one byte. *)
Lemma read_varint_shorter (bs rest : bytes) (v : N) :
  read_varint bs = Some (v, rest) → (length rest < length bs)%nat.
Proof.
  revert v rest. induction bs as [|b bs IH]; intros v rest; simpl.
  - discriminate.
  - destruct (N.testbit (Byte.to_N b) 7).
    + destruct (read_varint bs) as [[high rest']|] eqn:Hv; [|discriminate].
      intros [= <- <-]. specialize (IH _ _ eq_refl). lia.
    + intros [= <- <-]. lia.
Qed.

(** The record walk fails in one way only. *)
Lemma decode_records_Err (fuel : nat) (rest : bytes) (e : ParseError) :
  decode_records fuel rest = Err e → e = TruncatedRecord.
Proof.
  revert rest. induction fuel as [|fuel IH]; intros [|t after_tag]; simpl;
    try discriminate; try (intros [= <-]; done).
  destruct (read_varint after_tag) as [[len after_len]|];
    [|intros [= <-]; done].
  case_decide as Hlen; [|intros [= <-]; done].
  intros Hd. apply result_bind_Err in Hd as [Hb | (fs & _ & [=])]. eauto.
Qed.

(** A successful record walk accounts for every byte of the slice. *)
Lemma decode_records_consumed (fuel : nat) (rest : bytes) (fs : list Field) :
  decode_records fuel rest = Ok fs → consumed fs = N.of_nat (length rest).
Proof.
  revert rest fs. induction fuel as [|fuel IH]; intros [|t after_tag] fs; simpl;
    try discriminate; try (intros [= <-]; done).
  destruct (read_varint after_tag) as [[len after_len]|] eqn:Hv; [|discriminate].
  case_decide as Hlen; [|discriminate].
  intros H. apply result_bind_Ok in H as (fs' & Hfs' & [= <-]).
  apply IH in Hfs'. apply read_varint_shorter in Hv.
  simpl. rewrite Hfs'. rewrite length_drop. lia.
Qed.

Lemma read_varint_split (bs rest : bytes) (v : N) :
  read_varint bs = Some (v, rest) → ∃ pre, pre ≠ [] ∧ bs = pre ++ rest.
Proof.
  revert v rest. induction bs as [|b bs IH]; intros v rest; simpl; [discriminate|].
  destruct (N.testbit (Byte.to_N b) 7).
  - destruct (read_varint bs) as [[high rest']|] eqn:Hv; [|discriminate].
    intros [= <- <-]. destruct (IH _ _ eq_refl) as (pre & _ & ->).
    by exists (b :: pre).
  - intros [= <- <-]. by exists [b].
Qed.

Lemma decode_records_tiles (fuel : nat) (rest : bytes) (fs : list Field) :
  decode_records fuel rest = Ok fs → tiles fs rest.
Proof.
  revert rest fs. induction fuel as [|fuel IH]; intros [|t after_tag] fs; simpl;
    try discriminate; try (intros [= <-]; constructor).
  destruct (read_varint after_tag) as [[len after_len]|] eqn:Hv; [|discriminate].
  case_decide as Hlen; [|discriminate].
  intros H. apply result_bind_Ok in H as (fs' & Hfs' & [= <-]).
  apply IH in Hfs'. apply read_varint_split in Hv as (pre & Hpre & ->).
  set (k := N.to_nat len) in *.
  assert (Hk : length (take k after_len) = k) by (rewrite length_take; lia).
  rewrite length_drop, length_app.
  replace (N.of_nat (S (length pre + length after_len)) -
           N.of_nat (length after_len - k))%N
    with (N.of_nat (1 + length pre + length (take k after_len))) by lia.
  rewrite <- (take_drop k after_len) at 3.
  by constructor.
Qed.

Lemma tiles_consumed (fs : list Field) (body : bytes) :
  tiles fs body → consumed fs = N.of_nat (length body).
Proof.
  induction 1 as [|t len_field body rest fs Hne _ IH]; [done|].
  simpl. rewrite IH. rewrite !length_app. lia.
Qed.

(** Fuel: the length of the slice is enough, and more changes nothing. *)
Lemma decode_records_fuel (fuel : nat) (rest : bytes) :
  (length rest ≤ fuel)%nat →
  decode_records fuel rest = decode_records (length rest) rest.
Proof.
  revert fuel. induction rest as [rest IH] using (induction_ltof1 _ (@length byte)).
  unfold ltof in IH. intros fuel Hfuel.
  destruct rest as [|t after_tag]; [by destruct fuel|].
  destruct fuel as [|fuel]; [simpl in Hfuel; lia|]. simpl.
  destruct (read_varint after_tag) as [[len after_len]|] eqn:Hv; [|done].
  case_decide as Hlen; [|done].
  apply read_varint_shorter in Hv.
  assert (Hn : (length (drop (N.to_nat len) after_len) ≤ length after_tag)%nat)
    by (rewrite length_drop; lia).
  rewrite (IH (drop (N.to_nat len) after_len)) by (simpl in *; lia).
  rewrite (IH (drop (N.to_nat len) after_len) ltac:(simpl; lia) (length after_tag)) by done.
  done.
Qed.
Section Parser.
Variable field_kind : byte → FieldKind.
Variable proof_public_key : bytes → bytes.
Variable proof_signature : bytes → bytes.

#[local] Abbreviation parse_container :=
  (parse_container field_kind proof_public_key proof_signature).
#[local] Abbreviation parse_crx3 :=
  (parse_crx3 field_kind proof_public_key proof_signature).
#[local] Abbreviation decode :=
  (decode field_kind proof_public_key proof_signature).

Lemma parse_container_dispatch (buf : bytes) :
  take 4 buf = CRX_MAGIC → (8 ≤ length buf)%nat →
  parse_container buf =
    if decide (version_field buf = 2%N) then parse_crx2 buf
    else if decide (version_field buf = 3%N) then parse_crx3 buf
    else Err (UnsupportedVersion (version_field buf)).
Proof.
  intros Hm Hlen. unfold Core.parse_container.
  assert (read_bytes buf 0 4 = Ok CRX_MAGIC) as ->.
  { apply read_bytes_Ok. split; [lia|].
    by change (slice buf 0 4) with (take 4 buf). }
  cbn [mbind result_bind]. rewrite decide_True by done.
  assert (read_u32 buf 4 = Ok (version_field buf)) as ->
    by (apply read_u32_Ok; split; [lia|done]).
  done.
Qed.

Lemma parse_container_short (buf : bytes) :
  (length buf < 8)%nat →
  parse_container buf = Err Truncated ∨ parse_container buf = Err BadMagic.
Proof.
  intros Hlen. unfold Core.parse_container.
  destruct (read_bytes buf 0 4) as [magic|e] eqn:Hr; simpl.
  - case_decide; [|by right].
    assert (read_u32 buf 4 = Err Truncated) as ->
      by (apply read_u32_Err; split; [lia|done]).
    by left.
  - apply read_bytes_Err in Hr as [_ ->]. by left.
Qed.

Lemma parse_container_Ok_inv (buf : bytes) (h : ContainerHeader) :
  parse_container buf = Ok h →
  take 4 buf = CRX_MAGIC ∧ (8 ≤ length buf)%nat ∧
  ((version_field buf = 2%N ∧ parse_crx2 buf = Ok h) ∨
   (version_field buf = 3%N ∧ parse_crx3 buf = Ok h)).
Proof.
  intros Hp.
  destruct (decide (length buf < 8)%nat) as [Hs|Hs].
  { destruct (parse_container_short _ Hs) as [He|He]; congruence. }
  assert (Hm : take 4 buf = CRX_MAGIC).
  { unfold Core.parse_container in Hp.
    apply result_bind_Ok in Hp as (magic & Hr & Hk).
    apply read_bytes_Ok in Hr as [_ ->]. case_decide as Hm; [|discriminate].
    by change (slice buf 0 4) with (take 4 buf) in Hm. }
  rewrite parse_container_dispatch in Hp by (done || lia).
  split; [done|]. split; [lia|].
  repeat case_decide; [by left | by right | discriminate].
Qed.

Lemma parse_crx2_Ok (buf : bytes) (h : ContainerHeader) :
  parse_crx2 buf = Ok h ↔
  (16 + key_length_field buf + sig_length_field buf ≤ N.of_nat (length buf))%N ∧
  h = mkHeader CRX2
        [slice buf 16 (key_length_field buf)]
        [slice buf (16 + key_length_field buf) (sig_length_field buf)]
        (16 + key_length_field buf + sig_length_field buf) None.
Proof.
  unfold parse_crx2, CRX2_PREAMBLE. split.
  - intros Hp. apply result_bind_Ok in Hp as (kl & Hkl & Hp).
    apply result_bind_Ok in Hp as (sl & Hsl & Hp).
    apply read_u32_Ok in Hkl as [_ ->]. apply read_u32_Ok in Hsl as [_ ->].
    case_decide; [|discriminate]. by injection Hp as <-.
  - intros [Hle ->].
    assert (read_u32 buf 8 = Ok (key_length_field buf)) as ->
      by (apply read_u32_Ok; split; [lia|done]).
    simpl.
    assert (read_u32 buf 12 = Ok (sig_length_field buf)) as ->
      by (apply read_u32_Ok; split; [lia|done]).
    simpl. by rewrite decide_True by done.
Qed.

Lemma parse_crx2_Err (buf : bytes) :
  (N.of_nat (length buf) < 16 ∨
   N.of_nat (length buf) < 16 + key_length_field buf + sig_length_field buf)%N →
  parse_crx2 buf = Err Truncated.
Proof.
  intros Hlt. unfold parse_crx2, CRX2_PREAMBLE.
  destruct (read_u32 buf 8) as [kl|e] eqn:Hkl; simpl;
    [|by apply read_u32_Err in Hkl as [_ ->]].
  destruct (read_u32 buf 12) as [sl|e] eqn:Hsl; simpl;
    [|by apply read_u32_Err in Hsl as [_ ->]].
  apply read_u32_Ok in Hkl as [_ ->]. apply read_u32_Ok in Hsl as [? ->].
  rewrite decide_False; [done|]. unfold key_length_field, sig_length_field in Hlt. lia.
Qed.

Lemma decode_Ok (body : bytes) (used : N) (keys sigs : list bytes) :
  decode body = Ok (used, keys, sigs) →
  ∃ fs, decode_records (length body) body = Ok fs ∧ used = consumed fs ∧
        length keys = length sigs.
Proof.
  unfold Core.decode. intros Hd. apply result_bind_Ok in Hd as (fs & Hfs & Hd).
  injection Hd as <- <- <-. exists fs. by rewrite !length_fmap.
Qed.

Lemma parse_crx3_Ok (buf : bytes) (h : ContainerHeader) :
  parse_crx3 buf = Ok h →
  let hlen := header_length_field buf in
  (12 + hlen ≤ N.of_nat (length buf))%N ∧
  zip_offset h = (12 + hlen)%N ∧ header_length h = Some hlen ∧
  format_version h = CRX3 ∧
  length (public_keys h) = length (signatures h) ∧
  ∃ fs, decode_records (N.to_nat hlen) (slice buf 12 hlen) = Ok fs ∧
        tiles fs (slice buf 12 hlen) ∧ consumed fs = hlen.
Proof.
  unfold Core.parse_crx3, CRX3_PREAMBLE. intros Hp.
  apply result_bind_Ok in Hp as (hlen & Hh & Hp).
  apply read_u32_Ok in Hh as [_ ->]. fold (header_length_field buf) in Hp.
  apply result_bind_Ok in Hp as (body & Hb & Hp).
  apply read_bytes_Ok in Hb as [Hle ->].
  apply result_bind_Ok in Hp as ([[used keys] sigs] & Hd & Hp).
  case_decide as Hused; [|discriminate]. injection Hp as <-.
  apply decode_Ok in Hd as (fs & Hfs & -> & Hlen).
  rewrite slice_length in Hfs by done.
  cbv zeta. repeat (split; [done|]). exists fs.
  split; [done|]. split; [by eapply decode_records_tiles | done].
Qed.

Lemma parse_crx3_Truncated (buf : bytes) :
  (N.of_nat (length buf) < 12 ∨
   N.of_nat (length buf) < 12 + header_length_field buf)%N →
  parse_crx3 buf = Err Truncated.
Proof.
  intros Hlt. unfold Core.parse_crx3, CRX3_PREAMBLE.
  destruct (read_u32 buf 8) as [hlen|e] eqn:Hh; simpl;
    [|by apply read_u32_Err in Hh as [_ ->]].
  apply read_u32_Ok in Hh as [? ->]. fold (header_length_field buf).
  assert (read_bytes buf 12 (header_length_field buf) = Err Truncated) as ->
    by (apply read_bytes_Err; split; [lia|done]).
  done.
Qed.

Lemma parse_crx3_TruncatedRecord (buf : bytes) (e : ParseError) :
  (12 + header_length_field buf ≤ N.of_nat (length buf))%N →
  decode_records (N.to_nat (header_length_field buf))
    (slice buf 12 (header_length_field buf)) = Err e →
  parse_crx3 buf = Err TruncatedRecord.
Proof.
  intros Hle Hd. unfold Core.parse_crx3, CRX3_PREAMBLE.
  assert (read_u32 buf 8 = Ok (header_length_field buf)) as ->
    by (apply read_u32_Ok; split; [lia|done]).
  simpl.
  assert (read_bytes buf 12 (header_length_field buf)
          = Ok (slice buf 12 (header_length_field buf))) as ->
    by (by apply read_bytes_Ok).
  simpl. unfold Core.decode. rewrite slice_length by done. rewrite Hd. simpl.
  by rewrite (decode_records_Err _ _ _ Hd).
Qed.

Lemma slice_lookup (buf : bytes) (pos n : N) (i : nat) :
  (i < N.to_nat n)%nat →
  slice buf pos n !! i = buf !! (N.to_nat pos + i)%nat.
Proof.
  intros Hi. unfold slice. rewrite lookup_take, decide_True by done.
  apply lookup_drop.
Qed.


(** C4 (as amended): for every valid CRX2 buffer the parser returns
    [zip_offset = 16 + key_length + sig_length], the single public key
    [buffer[16 .. 16+key_length]] and the single signature
    [buffer[16+key_length .. 16+key_length+sig_length]].  For the buffer
    of scenario A as it is written (signature length 2) that is the key
    "key", the signature "si" and offset 21; with a signature length
    of 3 it is "key", "sig" and 22. *)
Theorem crx2_header_layout :
  (∀ buf,
     take 4 buf = CRX_MAGIC → version_field buf = 2%N →
     (16 + key_length_field buf + sig_length_field buf ≤ N.of_nat (length buf))%N →
     parse_container buf =
       Ok (mkHeader CRX2
             [slice buf 16 (key_length_field buf)]
             [slice buf (16 + key_length_field buf) (sig_length_field buf)]
             (16 + key_length_field buf + sig_length_field buf) None)) ∧
  (∀ buf h,
     parse_container buf = Ok h → format_version h = CRX2 →
     zip_offset h = (16 + key_length_field buf + sig_length_field buf)%N ∧
     public_keys h = [slice buf 16 (key_length_field buf)] ∧
     signatures h = [slice buf (16 + key_length_field buf) (sig_length_field buf)]) ∧
  parse_container Samples.scenario_A =
    Ok (mkHeader CRX2 [Samples.KEY] [["s"; "i"]%byte] 21 None) ∧
  parse_container (Samples.crx2 Samples.KEY Samples.SIG Samples.ZIP) =
    Ok (mkHeader CRX2 [Samples.KEY] [Samples.SIG] 22 None).
Proof.
  split; [|split; [|split]].
  - intros buf Hm Hv Hle.
    rewrite parse_container_dispatch by (done || lia).
    rewrite decide_True by done. by apply parse_crx2_Ok.
  - intros buf h Hp Hf.
    apply parse_container_Ok_inv in Hp as (_ & _ & [[_ Hp] | [_ Hp]]).
    + apply parse_crx2_Ok in Hp as [_ ->]. done.
    + apply parse_crx3_Ok in Hp as (_ & _ & _ & Hf' & _). congruence.
  - vm_compute. reflexivity.
  - vm_compute. reflexivity.
Qed.


End Parser.
End CoreFacts.

(** * The string methods the page uses *)

Module DomFacts.
Import Dom.

Lemma chars_append (s t : string) : chars (s +:+ t) = chars s ++ chars t.
Proof. induction s as [|c s IH]; [done|]. cbn. by rewrite <- IH. Qed.

Lemma of_chars_app (l k : list Ascii.ascii) :
  of_chars (l ++ k) = of_chars l +:+ of_chars k.
Proof. induction l as [|c l IH]; [done|]. cbn. by rewrite IH. Qed.

Lemma starts_with_spec (pat l : list Ascii.ascii) :
  starts_with pat l = true ↔ ∃ rest, l = pat ++ rest.
Proof.
  revert l. induction pat as [|p pat IH]; intros l.
  - split; [by exists l | done].
  - destruct l as [|c l]; cbn.
    + split; [done | by intros [? ?]].
    + rewrite andb_true_iff, bool_decide_eq_true, IH. split.
      * intros [-> [rest ->]]. by exists rest.
      * intros [rest [= -> ->]]. split; [done | by exists rest].
Qed.

Lemma starts_with_app (pat l r : list Ascii.ascii) :
  (length pat ≤ length l)%nat → starts_with pat (l ++ r) = starts_with pat l.
Proof.
  revert l. induction pat as [|p pat IH]; intros l Hlen; [done|].
  destruct l as [|c l]; cbn in *; [lia|]. rewrite IH; [done | lia].
Qed.

Lemma forallb_seq_S (f : nat → bool) (a n : nat) :
  forallb f (seq (S a) n) = forallb (λ i, f (S i)) (seq a n).
Proof.
  revert a. induction n as [|n IH]; intros a; [done|].
  cbn [seq forallb]. by rewrite IH.
Qed.

Lemma first_occurrence_after_cons (pat pre : list Ascii.ascii) (c : Ascii.ascii) :
  first_occurrence_after pat (c :: pre) =
    negb (starts_with pat (c :: pre ++ pat)) && first_occurrence_after pat pre.
Proof.
  unfold first_occurrence_after. cbn [length seq forallb drop app].
  f_equal. by rewrite forallb_seq_S.
Qed.

Lemma replace_first_unfold (pat rep l : list Ascii.ascii) :
  replace_first pat rep l =
    if starts_with pat l then rep ++ drop (length pat) l
    else match l with
         | [] => []
         | c :: l' => c :: replace_first pat rep l'
         end.
Proof. by destruct l. Qed.

Lemma replace_first_at (pat rep pre rest : list Ascii.ascii) :
  first_occurrence_after pat pre = true →
  replace_first pat rep (pre ++ pat ++ rest) = pre ++ rep ++ rest.
Proof.
  induction pre as [|c pre IH]; intros Hfirst.
  - rewrite replace_first_unfold. cbn [app].
    replace (starts_with pat (pat ++ rest)) with true
      by (symmetry; apply starts_with_spec; by exists rest).
    by rewrite drop_app_length.
  - rewrite first_occurrence_after_cons in Hfirst.
    apply andb_true_iff in Hfirst as [Hhere Hlater].
    apply negb_true_iff in Hhere.
    rewrite replace_first_unfold. cbn [app].
    replace (starts_with pat (c :: pre ++ pat ++ rest)) with false.
    + by rewrite IH.
    + rewrite <- Hhere.
      change (c :: pre ++ pat ++ rest) with ((c :: pre) ++ pat ++ rest).
      rewrite (assoc (++)). rewrite starts_with_app; [done|].
      rewrite length_app. lia.
Qed.

Lemma replace_first_absent (pat rep l : list Ascii.ascii) :
  occurs pat l = false → replace_first pat rep l = l.
Proof.
  induction l as [|c l IH]; intros Hno; rewrite replace_first_unfold;
    cbn [occurs] in Hno; apply orb_false_elim in Hno as [-> Hno]; [done|].
  by rewrite IH.
Qed.

(** X13.  [endsWith]: the test [handleFileSelect] makes accepts exactly the
    names that are some stem followed by the suffix; it compares characters,
    so it tells upper from lower case. *)
Theorem js_endsWith_iff_suffix (s suffix : string) :
  js_endsWith s suffix = true ↔ ∃ stem, s = stem +:+ suffix.
Proof.
  unfold js_endsWith. rewrite starts_with_spec. split.
  - intros [rest Hrev]. exists (of_chars (reverse rest)).
    apply (f_equal reverse) in Hrev.
    rewrite reverse_involutive, reverse_app, reverse_involutive in Hrev.
    rewrite <- (String.string_of_list_ascii_of_string s), Hrev, of_chars_app.
    by rewrite String.string_of_list_ascii_of_string.
  - intros [stem ->]. exists (reverse (chars stem)).
    by rewrite chars_append, reverse_app.
Qed.

(** X14.  [replace] with a string pattern, as [extractZipContent] uses it to
    name the download: the first occurrence of the pattern is replaced and
    nothing else, whatever follows it, and a string without the pattern is
    returned as it is.  So the name of a download need not end in [.zip]:
    of two [.crx] in a name the first is the one replaced. *)
Theorem js_replace_replaces_the_first_occurrence (pat rep pre rest s : string) :
  (first_occurrence_after (chars pat) (chars pre) = true →
     js_replace pat rep (pre +:+ pat +:+ rest) = pre +:+ rep +:+ rest) ∧
  (occurs (chars pat) (chars s) = false → js_replace pat rep s = s).
Proof.
  split.
  - intros Hfirst. unfold js_replace.
    rewrite !chars_append, (replace_first_at _ _ _ _ Hfirst), !of_chars_app.
    by rewrite !String.string_of_list_ascii_of_string.
  - intros Hno. unfold js_replace. rewrite (replace_first_absent _ _ _ Hno).
    apply String.string_of_list_ascii_of_string.
Qed.

End DomFacts.

(** * The properties at concrete inputs

    The exports are those of [SpecWasm]; the input buffer sits at location 0
    of the heap. *)

#[local] Abbreviation loaded_with b :=
  (Js.ready_world SpecWasm.WasmErr {[0%nat := b]}).
#[local] Abbreviation not_loaded_with b :=
  (Js.initial_world SpecWasm.WasmErr {[0%nat := b]} true).
#[local] Abbreviation parse :=
  (Js.parse SpecWasm.parse_crx Samples.UNINIT_MESSAGE Samples.FETCH_MESSAGE).
#[local] Abbreviation extractZip :=
  (Js.extractZip SpecWasm.extract_zip_data Samples.UNINIT_MESSAGE).
#[local] Abbreviation extractZip_unchecked :=
  (Js.extractZip SpecWasm.extract_from_offset Samples.UNINIT_MESSAGE).
#[local] Abbreviation manualExtractZip :=
  (Js.manualExtractZip SpecWasm.parse_crx SpecWasm.wasm_message Samples.UNINIT_MESSAGE).

(** C1, counterexample: a valid CRX2 file that ends right after its
    signature.  The remaining slice is empty, and [manualExtractZip] returns
    it as the ZIP content instead of failing. *)
Lemma manualExtractZip_returns_empty_payload :
  SpecWasm.parse_crx (Samples.crx2 Samples.KEY Samples.SIG [])
    = Ok (Wasm.mkCrxInfo 2 Samples.KEY Samples.SIG 22) ∧
  length (Samples.crx2 Samples.KEY Samples.SIG []) = 22%nat ∧
  ∃ r w',
    manualExtractZip (Js.U8 0) (loaded_with (Samples.crx2 Samples.KEY Samples.SIG []))
      = (Ok r, w') ∧
    Js.contents w' r = [].
Proof.
  split; [by vm_compute|]. split; [by vm_compute|].
  eexists (Js.U8 1), _. split; by vm_compute.
Qed.

(** C1 (as amended) at a CRX2 file with a ZIP payload. *)
Lemma manualExtractZip_slices_without_checks_witness :
  Js.wasm_loaded (loaded_with (Samples.crx2 Samples.KEY Samples.SIG Samples.ZIP)) = true ∧
  SpecWasm.parse_crx
    (Js.contents (loaded_with (Samples.crx2 Samples.KEY Samples.SIG Samples.ZIP)) (Js.U8 0))
    = Ok (Wasm.mkCrxInfo 2 Samples.KEY Samples.SIG 22) ∧
  ∃ r w',
    manualExtractZip (Js.U8 0)
      (loaded_with (Samples.crx2 Samples.KEY Samples.SIG Samples.ZIP)) = (Ok r, w') ∧
    Js.contents w' r = Samples.ZIP.
Proof.
  set (w := loaded_with (Samples.crx2 Samples.KEY Samples.SIG Samples.ZIP)).
  assert (Hl : Js.wasm_loaded w = true) by reflexivity.
  assert (Hp : SpecWasm.parse_crx (Js.contents w (Js.U8 0))
               = Ok (Wasm.mkCrxInfo 2 Samples.KEY Samples.SIG 22))
    by (vm_compute; reflexivity).
  split; [exact Hl|]. split; [exact Hp|].
  destruct (Js.manualExtractZip_slices_without_checks SpecWasm.WasmErr
              SpecWasm.parse_crx SpecWasm.wasm_message Samples.UNINIT_MESSAGE
              (Js.U8 0) w) as [Hok _].
  destruct (Hok _ Hl Hp) as (r & w' & Hrun & _ & Hc & _).
  exists r, w'. split; [exact Hrun|]. rewrite Hc. vm_compute. reflexivity.
Defined.

(** C2 at two inputs: a CRX2 file with a ZIP payload, which [extractZip]
    returns, and scenario D, a valid header followed by "XY", with an
    export that leaves the signature test to its caller. *)
Lemma extractZip_checks_pk_signature_witness :
  (∃ r w',
     extractZip 0%nat (loaded_with (Samples.crx2 Samples.KEY Samples.SIG Samples.ZIP))
       = (Ok r, w') ∧
     Js.contents w' r !! 0%nat = Some x50 ∧ Js.contents w' r !! 1%nat = Some x4b) ∧
  Js.wasm_loaded (loaded_with (Samples.crx2 Samples.KEY Samples.SIG ["X"; "Y"]%byte)) = true ∧
  SpecWasm.extract_from_offset
    (Js.contents (loaded_with (Samples.crx2 Samples.KEY Samples.SIG ["X"; "Y"]%byte)) (Js.U8 0))
    = Ok ["X"; "Y"]%byte ∧
  ∃ w',
    extractZip_unchecked 0%nat
      (loaded_with (Samples.crx2 Samples.KEY Samples.SIG ["X"; "Y"]%byte))
    = (Err Js.not_zip_error, w').
Proof.
  split.
  - set (w := loaded_with (Samples.crx2 Samples.KEY Samples.SIG Samples.ZIP)).
    assert (Hrun : extractZip 0%nat w = (Ok (Js.U8 1), snd (extractZip 0%nat w)))
      by (vm_compute; reflexivity).
    destruct (Js.extractZip_checks_pk_signature SpecWasm.WasmErr
                SpecWasm.extract_zip_data Samples.UNINIT_MESSAGE 0%nat w) as [Hok _].
    destruct (Hok _ _ Hrun) as (_ & H0 & H1).
    eexists _, _. split; [exact Hrun|]. split; [exact H0 | exact H1].
  - set (w := loaded_with (Samples.crx2 Samples.KEY Samples.SIG ["X"; "Y"]%byte)).
    assert (Hl : Js.wasm_loaded w = true) by reflexivity.
    assert (Hx : SpecWasm.extract_from_offset (Js.contents w (Js.U8 0)) = Ok ["X"; "Y"]%byte)
      by (vm_compute; reflexivity).
    split; [exact Hl|]. split; [exact Hx|].
    destruct (Js.extractZip_checks_pk_signature SpecWasm.WasmErr
                SpecWasm.extract_from_offset Samples.UNINIT_MESSAGE 0%nat w) as [_ Hno].
    destruct (Hno _ Hl Hx) as (w' & Hrun & _).
    + intros [H0 _]. vm_compute in H0. discriminate.
    + exists w'. exact Hrun.
Defined.

(** C8 at two inputs: a CRX2 file with a ZIP payload, and one with a payload
    of a single byte. *)
Lemma extractZip_rejects_short_payload_witness :
  (∃ r w',
     extractZip 0%nat (loaded_with (Samples.crx2 Samples.KEY Samples.SIG Samples.ZIP))
       = (Ok r, w') ∧
     (2 ≤ length (Js.contents w' r))%nat) ∧
  Js.wasm_loaded (loaded_with (Samples.crx2 Samples.KEY Samples.SIG ["P"]%byte)) = true ∧
  SpecWasm.extract_from_offset
    (Js.contents (loaded_with (Samples.crx2 Samples.KEY Samples.SIG ["P"]%byte)) (Js.U8 0))
    = Ok ["P"]%byte ∧
  (length ["P"%byte] < 2)%nat ∧
  ∃ w',
    extractZip_unchecked 0%nat
      (loaded_with (Samples.crx2 Samples.KEY Samples.SIG ["P"]%byte))
    = (Err Js.not_zip_error, w').
Proof.
  split.
  - set (w := loaded_with (Samples.crx2 Samples.KEY Samples.SIG Samples.ZIP)).
    assert (Hrun : extractZip 0%nat w = (Ok (Js.U8 1), snd (extractZip 0%nat w)))
      by (vm_compute; reflexivity).
    destruct (Js.extractZip_rejects_short_payload SpecWasm.WasmErr
                SpecWasm.extract_zip_data Samples.UNINIT_MESSAGE 0%nat w) as [Hok _].
    destruct (Hok _ _ Hrun) as (Hlen & _).
    eexists _, _. split; [exact Hrun | exact Hlen].
  - set (w := loaded_with (Samples.crx2 Samples.KEY Samples.SIG ["P"]%byte)).
    assert (Hl : Js.wasm_loaded w = true) by reflexivity.
    assert (Hx : SpecWasm.extract_from_offset (Js.contents w (Js.U8 0)) = Ok ["P"]%byte)
      by (vm_compute; reflexivity).
    assert (Hlen : (length ["P"%byte] < 2)%nat) by (simpl; lia).
    split; [exact Hl|]. split; [exact Hx|]. split; [exact Hlen|].
    destruct (Js.extractZip_rejects_short_payload SpecWasm.WasmErr
                SpecWasm.extract_from_offset Samples.UNINIT_MESSAGE 0%nat w)
      as (_ & Hshort & _).
    destruct (Hshort _ Hl Hx Hlen) as (_ & _ & w' & Hrun).
    exists w'. exact Hrun.
Defined.

(** C6, counterexample: a failure is thrown, not returned.  A bare ZIP given
    to [extractZip] ends the call with the value the export threw for
    [BadMagic]; given to [manualExtractZip] it ends the call with a generic
    [Error] that keeps the kind in its message text only; and a file with a
    one-byte payload, which extraction rejects as [EmptyPayload], is handed
    back by [manualExtractZip] as if it were valid. *)
Lemma failures_are_not_returned_values :
  (∃ w', extractZip 0%nat (loaded_with Samples.bare_zip)
         = (Err (Js.WasmThrown (SpecWasm.ParseFailed Core.BadMagic)), w')) ∧
  (∃ w', manualExtractZip (Js.U8 0) (loaded_with Samples.bare_zip)
         = (Err (Js.JsError "Error" "Failed to extract ZIP data: BadMagic"), w')) ∧
  SpecWasm.extract_zip_data (Samples.crx2 Samples.KEY Samples.SIG ["P"]%byte)
    = Err (SpecWasm.ExtractFailed Core.EmptyPayload) ∧
  (∃ r w',
     manualExtractZip (Js.U8 0)
       (loaded_with (Samples.crx2 Samples.KEY Samples.SIG ["P"]%byte)) = (Ok r, w') ∧
     Js.contents w' r = ["P"]%byte).
Proof.
  split; [|split; [|split]].
  - eexists. by vm_compute.
  - eexists. by vm_compute.
  - by vm_compute.
  - eexists (Js.U8 1), _. split; by vm_compute.
Qed.

(** C6 at a bare ZIP given to [manualExtractZip]: the thrown [BadMagic]
    comes back as a generic [Error] that carries its message. *)
Lemma failures_are_thrown_values_witness :
  ∃ w' cause,
    manualExtractZip (Js.U8 0) (loaded_with Samples.bare_zip)
      = (Err (Js.JsError "Error" "Failed to extract ZIP data: BadMagic"), w') ∧
    @Js.JsError SpecWasm.WasmErr "Error" "Failed to extract ZIP data: BadMagic"
      = Js.JsError "Error"
          ("Failed to extract ZIP data: " +:+ Js.message_of _ SpecWasm.wasm_message cause) ∧
    (cause = Js.uninit_error Samples.UNINIT_MESSAGE ∨
     ∃ we, SpecWasm.parse_crx (Js.contents (loaded_with Samples.bare_zip) (Js.U8 0)) = Err we ∧
           cause = Js.WasmThrown we).
Proof.
  set (w := loaded_with Samples.bare_zip).
  assert (Hrun : manualExtractZip (Js.U8 0) w
                 = (Err (Js.JsError "Error" "Failed to extract ZIP data: BadMagic"),
                    snd (manualExtractZip (Js.U8 0) w)))
    by (vm_compute; reflexivity).
  destruct (Js.failures_are_thrown_values SpecWasm.WasmErr SpecWasm.parse_crx
              SpecWasm.extract_zip_data SpecWasm.wasm_message
              Samples.UNINIT_MESSAGE Samples.FETCH_MESSAGE w)
    as (_ & _ & Hmanual & _).
  destruct (Hmanual _ _ _ Hrun) as (cause & He & Hcause).
  exists (snd (manualExtractZip (Js.U8 0) w)), cause.
  split; [exact Hrun|]. split; [exact He | exact Hcause].
Defined.


(** C9 at [extractZip] in a world where nothing was initialized, and
    [parse] in the same world. *)
Lemma initialization_discipline_witness :
  Js.wasm_loaded (not_loaded_with (Samples.crx2 Samples.KEY Samples.SIG Samples.ZIP)) = false ∧
  fst (extractZip 0%nat (not_loaded_with (Samples.crx2 Samples.KEY Samples.SIG Samples.ZIP)))
    = Err (Js.uninit_error Samples.UNINIT_MESSAGE) ∧
  Js.wasm_fetchable (not_loaded_with (Samples.crx2 Samples.KEY Samples.SIG Samples.ZIP)) = true ∧
  Js.observe (parse 0%nat (not_loaded_with (Samples.crx2 Samples.KEY Samples.SIG Samples.ZIP)))
    = Ok (2%Z, Samples.KEY, Samples.SIG, 22%Z).
Proof.
  set (w := not_loaded_with (Samples.crx2 Samples.KEY Samples.SIG Samples.ZIP)).
  assert (Hl : Js.wasm_loaded w = false) by reflexivity.
  assert (Hf : Js.wasm_fetchable w = true) by reflexivity.
  destruct (Js.initialization_discipline SpecWasm.WasmErr SpecWasm.parse_crx
              SpecWasm.extract_zip_data SpecWasm.wasm_message
              Samples.UNINIT_MESSAGE Samples.FETCH_MESSAGE w)
    as (_ & Hparse & Hextract & _).
  split; [exact Hl|]. split; [|split; [exact Hf|]].
  - destruct (extractZip 0%nat w) as [o w'] eqn:Hrun.
    destruct (Hextract _ _ _ Hrun) as (_ & _ & Hun). exact (Hun Hl).
  - rewrite (Hparse 0%nat Hf). vm_compute. reflexivity.
Defined.




(** C4, counterexample: the buffer of scenario A as the claim writes it
    declares a signature of two bytes, so the parser returns the signature
    "si" and offset 21, not "sig" and 22. *)
Lemma scenario_A_as_written_has_offset_21 :
  SpecWasm.parse_container Samples.scenario_A
    = Ok (Core.mkHeader Core.CRX2 [Samples.KEY] [["s"; "i"]%byte] 21 None) ∧
  SpecWasm.parse_container Samples.scenario_A
    ≠ Ok (Core.mkHeader Core.CRX2 [Samples.KEY] [Samples.SIG] 22 None).
Proof.
  split; [vm_compute; reflexivity|].
  intros H. vm_compute in H. discriminate.
Qed.

(** C4 (as amended) at the CRX2 file with key "key", signature "sig" and a
    ZIP payload. *)
Lemma crx2_header_layout_witness :
  Core.version_field (Samples.crx2 Samples.KEY Samples.SIG Samples.ZIP) = 2%N ∧
  Core.key_length_field (Samples.crx2 Samples.KEY Samples.SIG Samples.ZIP) = 3%N ∧
  Core.sig_length_field (Samples.crx2 Samples.KEY Samples.SIG Samples.ZIP) = 3%N ∧
  SpecWasm.parse_container (Samples.crx2 Samples.KEY Samples.SIG Samples.ZIP)
    = Ok (Core.mkHeader Core.CRX2 [Samples.KEY] [Samples.SIG] 22 None).
Proof.
  set (buf := Samples.crx2 Samples.KEY Samples.SIG Samples.ZIP).
  do 3 (split; [vm_compute; reflexivity|]).
  destruct (CoreFacts.crx2_header_layout SpecWasm.field_kind
              SpecWasm.proof_public_key SpecWasm.proof_signature) as (Hvalid & _).
  unfold SpecWasm.parse_container. rewrite (Hvalid buf).
  - vm_compute. reflexivity.
  - vm_compute. reflexivity.
  - vm_compute. reflexivity.
  - vm_compute. discriminate.
Defined.


(** ** The methods of [CrxParser] *)

#[local] Abbreviation initialize :=
  (Js.initialize SpecWasm.WasmErr Samples.FETCH_MESSAGE).


(** X2 at a bare ZIP, which the export rejects: the rejection is the last
    thing on the console when [extractZip] throws it. *)
Lemma failures_are_logged_before_they_are_thrown_witness :
  ∃ w' earlier,
    extractZip 0%nat (loaded_with Samples.bare_zip)
      = (Err (Js.WasmThrown (SpecWasm.ParseFailed Core.BadMagic)), w') ∧
    Js.trace w' =
      earlier ++ [Js.EvConsoleError "ZIP extraction error:"
                    (Some (Js.WasmThrown (SpecWasm.ParseFailed Core.BadMagic)))].
Proof.
  set (w := loaded_with Samples.bare_zip).
  assert (Hrun : extractZip 0%nat w =
            (Err (Js.WasmThrown (SpecWasm.ParseFailed Core.BadMagic)),
             snd (extractZip 0%nat w)))
    by (vm_compute; reflexivity).
  destruct (Js.failures_are_logged_before_they_are_thrown SpecWasm.WasmErr
              SpecWasm.parse_crx SpecWasm.extract_zip_data SpecWasm.wasm_message
              Samples.UNINIT_MESSAGE w) as [Hlast _].
  destruct (Hlast _ _ _ Hrun) as [earlier Htrace].
  eexists _, earlier. split; [exact Hrun | exact Htrace].
Defined.

(** X3 at a CRX2 file with a ZIP payload. *)
Lemma manualExtractZip_returns_a_suffix_witness :
  ∃ r w',
    manualExtractZip (Js.U8 0)
      (loaded_with (Samples.crx2 Samples.KEY Samples.SIG Samples.ZIP)) = (Ok r, w') ∧
    Js.contents w' r `suffix_of` Samples.crx2 Samples.KEY Samples.SIG Samples.ZIP.
Proof.
  set (w := loaded_with (Samples.crx2 Samples.KEY Samples.SIG Samples.ZIP)).
  assert (Hrun : manualExtractZip (Js.U8 0) w =
            (Ok (Js.U8 1), snd (manualExtractZip (Js.U8 0) w)))
    by (vm_compute; reflexivity).
  destruct (Js.manualExtractZip_returns_a_suffix SpecWasm.WasmErr SpecWasm.parse_crx
              SpecWasm.wasm_message Samples.UNINIT_MESSAGE _ _ _ _ Hrun)
    as (Hsuffix & _).
  eexists _, _. split; [exact Hrun | exact Hsuffix].
Defined.

(** X4 at a CRX2 file with a ZIP payload, in a world where the module is
    not loaded yet: [parse] loads it, and [extractZip] returns the ZIP. *)
Lemma parse_then_extractZip_witness :
  is_Some (Js.heap (not_loaded_with (Samples.crx2 Samples.KEY Samples.SIG Samples.ZIP))
             !! 0%nat) ∧
  fst (parse 0%nat (not_loaded_with (Samples.crx2 Samples.KEY Samples.SIG Samples.ZIP)))
    ≠ Err (Js.fetch_error Samples.FETCH_MESSAGE) ∧
  Js.wasm_loaded
    (snd (parse 0%nat (not_loaded_with (Samples.crx2 Samples.KEY Samples.SIG Samples.ZIP))))
    = true ∧
  ∃ r w2,
    extractZip 0%nat
      (snd (parse 0%nat (not_loaded_with (Samples.crx2 Samples.KEY Samples.SIG Samples.ZIP))))
      = (Ok r, w2) ∧
    Js.contents w2 r = Samples.ZIP.
Proof.
  set (w := not_loaded_with (Samples.crx2 Samples.KEY Samples.SIG Samples.ZIP)).
  assert (Hbuf : is_Some (Js.heap w !! 0%nat)) by (eexists; vm_compute; reflexivity).
  assert (Hrun1 : parse 0%nat w = (fst (parse 0%nat w), snd (parse 0%nat w)))
    by apply surjective_pairing.
  assert (Hne : fst (parse 0%nat w) ≠ Err (Js.fetch_error Samples.FETCH_MESSAGE))
    by (vm_compute; discriminate).
  set (w1 := snd (parse 0%nat w)) in *.
  assert (Hrun2 : extractZip 0%nat w1 = (fst (extractZip 0%nat w1), snd (extractZip 0%nat w1)))
    by apply surjective_pairing.
  destruct (Js.parse_then_extractZip SpecWasm.WasmErr SpecWasm.parse_crx
              SpecWasm.extract_zip_data Samples.UNINIT_MESSAGE Samples.FETCH_MESSAGE
              _ _ _ _ _ _ Hbuf Hrun1 Hne Hrun2) as (Hl & _ & Hout).
  split; [exact Hbuf|]. split; [exact Hne|]. split; [exact Hl|].
  change (∃ r, fst (extractZip 0%nat w1) = Ok r ∧
               Js.contents (snd (extractZip 0%nat w1)) r = Samples.ZIP) in Hout.
  destruct Hout as (r & Hr & Hc).
  exists r, (snd (extractZip 0%nat w1)).
  split; [rewrite <- Hr; apply surjective_pairing | exact Hc].
Defined.


(** ** The page

    The page of a browser that can fetch the module, with nothing on the
    heap; [JSON.stringify] is [Samples.json_summary]. *)

#[local] Abbreviation dispatch :=
  (Js.dispatch SpecWasm.WasmErr SpecWasm.parse_crx SpecWasm.extract_zip_data
     SpecWasm.wasm_message Samples.UNINIT_MESSAGE Samples.FETCH_MESSAGE
     Samples.json_summary).
#[local] Abbreviation after_events :=
  (Js.after_events SpecWasm.WasmErr SpecWasm.parse_crx SpecWasm.extract_zip_data
     SpecWasm.wasm_message Samples.UNINIT_MESSAGE Samples.FETCH_MESSAGE
     Samples.json_summary).
#[local] Abbreviation page_at_load :=
  (Js.loaded_page SpecWasm.WasmErr SpecWasm.wasm_message Samples.FETCH_MESSAGE
     (Js.initial_world SpecWasm.WasmErr ∅ true)).



(** X10 at a drop of the file "sample.crx" on the page at load. *)
Lemma selecting_a_crx_file_witness :
  Js.selected_file (Dom.Drop [Samples.crx_file]) = Some Samples.crx_file ∧
  Dom.js_endsWith (Dom.file_name Samples.crx_file) ".crx" = true ∧
  Dom.file_read Samples.crx_file = Ok (Samples.crx2 Samples.KEY Samples.SIG Samples.ZIP) ∧
  Js.filename (snd (dispatch (Dom.Drop [Samples.crx_file]) page_at_load)) = "sample.crx" ∧
  Js.resultContainer_hidden (snd (dispatch (Dom.Drop [Samples.crx_file]) page_at_load))
    = false ∧
  Js.crxInfo_text (snd (dispatch (Dom.Drop [Samples.crx_file]) page_at_load))
    = Samples.json_summary (Dom.mkInfoSummary "sample.crx" 2 3 3 22).
Proof.
  assert (Hsel : Js.selected_file (Dom.Drop [Samples.crx_file]) = Some Samples.crx_file)
    by reflexivity.
  assert (Hname : Dom.js_endsWith (Dom.file_name Samples.crx_file) ".crx" = true)
    by (vm_compute; reflexivity).
  assert (Hread : Dom.file_read Samples.crx_file
                  = Ok (Samples.crx2 Samples.KEY Samples.SIG Samples.ZIP))
    by reflexivity.
  destruct (Js.selecting_a_crx_file SpecWasm.WasmErr SpecWasm.parse_crx
              SpecWasm.extract_zip_data SpecWasm.wasm_message Samples.UNINIT_MESSAGE
              Samples.FETCH_MESSAGE Samples.json_summary
              _ _ _ page_at_load Hsel Hname Hread) as (Hfile & _ & _ & Hout).
  vm_compute in Hout. destruct Hout as (_ & Hshown & Htext & _).
  do 3 (split; [assumption|]). split; [exact Hfile|].
  split; vm_compute; assumption.
Defined.

(** X11 at a drop of the file "notes.txt", which is rejected, and at a
    click on the extract button after a drop of "sample.crx". *)
Lemma events_that_reach_CrxParser_witness :
  (Js.calls_CrxParser (Dom.Drop [Samples.text_file]) page_at_load = false ∧
   Js.world (snd (dispatch (Dom.Drop [Samples.text_file]) page_at_load))
     = Js.world page_at_load ∧
   Js.errorContainer_text (snd (dispatch (Dom.Drop [Samples.text_file]) page_at_load))
     = "Please select a valid .crx file.") ∧
  (Js.calls_CrxParser Dom.DownloadZipClick
     (after_events [Dom.Drop [Samples.crx_file]] page_at_load) = true ∧
   ∃ first rest,
     Js.trace (Js.world (snd (dispatch Dom.DownloadZipClick
                                (after_events [Dom.Drop [Samples.crx_file]] page_at_load))))
     = Js.trace (Js.world (after_events [Dom.Drop [Samples.crx_file]] page_at_load))
         ++ first :: rest).
Proof.
  split.
  - assert (Hno : Js.calls_CrxParser (Dom.Drop [Samples.text_file]) page_at_load = false)
      by (vm_compute; reflexivity).
    destruct (Js.events_that_reach_CrxParser SpecWasm.WasmErr SpecWasm.parse_crx
                SpecWasm.extract_zip_data SpecWasm.wasm_message Samples.UNINIT_MESSAGE
                Samples.FETCH_MESSAGE Samples.json_summary
                (Dom.Drop [Samples.text_file]) page_at_load) as [Hframe _].
    destruct (Hframe Hno) as (Hworld & _ & _ & _ & _ & _ & Hshown).
    destruct (Hshown Samples.text_file) as (_ & Htext); [reflexivity|].
    split; [exact Hno|]. split; [exact Hworld | exact Htext].
  - set (p := after_events [Dom.Drop [Samples.crx_file]] page_at_load).
    assert (Hyes : Js.calls_CrxParser Dom.DownloadZipClick p = true)
      by (vm_compute; reflexivity).
    destruct (Js.events_that_reach_CrxParser SpecWasm.WasmErr SpecWasm.parse_crx
                SpecWasm.extract_zip_data SpecWasm.wasm_message Samples.UNINIT_MESSAGE
                Samples.FETCH_MESSAGE Samples.json_summary
                Dom.DownloadZipClick p) as [_ Hcall].
    destruct (Hcall Hyes) as (first & rest & Htrace & _).
    split; [exact Hyes|]. exists first, rest. exact Htrace.
Defined.

(** X14 at the name "my.app.crx.crx", of which the first [.crx] is replaced,
    and at "notes.txt", which stays. *)
Lemma js_replace_replaces_the_first_occurrence_witness :
  Dom.first_occurrence_after (Dom.chars ".crx") (Dom.chars "my.app") = true ∧
  Dom.js_replace ".crx" ".zip" "my.app.crx.crx" = "my.app.zip.crx" ∧
  Dom.occurs (Dom.chars ".crx") (Dom.chars "notes.txt") = false ∧
  Dom.js_replace ".crx" ".zip" "notes.txt" = "notes.txt".
Proof.
  assert (Hfirst : Dom.first_occurrence_after (Dom.chars ".crx") (Dom.chars "my.app") = true)
    by (vm_compute; reflexivity).
  assert (Hno : Dom.occurs (Dom.chars ".crx") (Dom.chars "notes.txt") = false)
    by (vm_compute; reflexivity).
  destruct (DomFacts.js_replace_replaces_the_first_occurrence
              ".crx" ".zip" "my.app" ".crx" "notes.txt") as [Hrep Hkeep].
  split; [exact Hfirst|]. split; [exact (Hrep Hfirst)|].
  split; [exact Hno | exact (Hkeep Hno)].
Defined.
